(** * Lost and Found AI similarity matcher: the matching core of [app.py]

    A shallow embedding of [AI_SIMILARITY/app.py].  Scores are modelled as
    real numbers (NumPy and Python floats without rounding error), the two
    embedding models, the image download and the Firestore handle are the
    fields of an environment record, and every call to one of them is
    recorded in a trace of events. *)

From Stdlib Require Import Reals Lra Lia ZArith List String Ascii Bool Arith.
From Stdlib Require Import Sorted Permutation.
Import ListNotations.

Open Scope R_scope.

(** ** Numbers: dot product, norm, cosine, rounding *)

(** A NumPy one-dimensional array, its entries taken as exact real
    numbers: no rounding, underflow or overflow. *)
Definition vec := list R.

(** [np.dot] of two one-dimensional arrays.  The two arguments always come
    from the same encoder, whose output has one fixed length; the error
    NumPy raises on arrays of different lengths is not modelled. *)

Fixpoint np_dot (vec1 vec2 : vec) : R :=
  match vec1, vec2 with
  | x :: xs, y :: ys => x * y + np_dot xs ys
  | _, _ => 0
  end.

(** [np.linalg.norm]: the Euclidean norm. *)
Definition np_linalg_norm (v : vec) : R := sqrt (np_dot v v).

(** The operator [/]: undefined on a zero divisor. *)
Definition py_truediv (x y : R) : option R :=
  if Req_dec_T y 0 then None else Some (x / y).

(** [cosine_similarity] (app.py, lines 71-76).  [None] stands for a division
    whose divisor is zero. *)
Definition cosine_similarity (vec1 vec2 : vec) : option R :=
  let dot_product := np_dot vec1 vec2 in
  let norm1 := np_linalg_norm vec1 in
  let norm2 := np_linalg_norm vec2 in
  if Rlt_dec 0 (norm1 * norm2)
  then py_truediv dot_product (norm1 * norm2)
  else Some 0.

(** The value [cosine_similarity] returns, as a total function. *)
Definition cosine_value (a b : vec) : R :=
  if Rlt_dec 0 (np_linalg_norm a * np_linalg_norm b)
  then (np_dot a b / (np_linalg_norm a * np_linalg_norm b))%R
  else 0%R.

(** [round(y)] to the nearest integer, ties to the even one. *)
Definition round_half_even (y : R) : Z :=
  let f := Int_part y in
  let r := y - IZR f in
  if Rlt_dec r (1 / 2) then f
  else if Rlt_dec (1 / 2) r then (f + 1)%Z
  else if Z.even f then f else (f + 1)%Z.

(** [round(x, 2)], taken on the exact real number; Python rounds the binary
    double that stands for it, which can differ in the last place. *)
Definition py_round2 (x : R) : R := IZR (round_half_even (x * 100)) / 100.

(** Configuration (app.py, lines 55-56). *)
Definition TEXT_WEIGHT : R := 3 / 10.
Definition IMAGE_WEIGHT : R := 7 / 10.

(** ** Strings *)

Open Scope string_scope.

(** Python truth value of a [str]. *)
Definition str_truthy (s : string) : bool :=
  match s with EmptyString => false | _ => true end.

(** A [str] is held as its UTF-8 encoding.  A continuation byte is one that
    does not start a character. *)
Definition is_continuation (c : ascii) : bool :=
  let n := nat_of_ascii c in (128 <=? n)%nat && (n <? 192)%nat.

Definition starts_with_continuation (s : string) : bool :=
  match s with EmptyString => false | String c _ => is_continuation c end.

(** The characters of a string, each with the bytes that encode it. *)
Fixpoint chars (s : string) : list string :=
  match s with
  | EmptyString => []
  | String c s' =>
      match chars s' with
      | ch :: rest =>
          if starts_with_continuation ch then String c ch :: rest
          else String c EmptyString :: ch :: rest
      | [] => [String c EmptyString]
      end
  end.

(** The string made of the characters [l]. *)
Definition join (l : list string) : string := fold_right append EmptyString l.

(** [len(s)]: the number of characters. *)
Definition py_len (s : string) : nat := List.length (chars s).

(** [str.isspace] of one character: U+0009 to U+000D, U+001C to U+0020,
    U+0085, U+00A0, U+1680, U+2000 to U+200A, U+2028, U+2029, U+202F,
    U+205F and U+3000, by their encodings. *)
Definition is_space (ch : string) : bool :=
  match map nat_of_ascii (list_ascii_of_string ch) with
  | [n] => ((9 <=? n) && (n <=? 13) || (28 <=? n) && (n <=? 32))%nat
  | [a; n] => ((a =? 194) && ((n =? 133) || (n =? 160)))%nat
  | [a; b; n] =>
      ((a =? 225) && (b =? 154) && (n =? 128)
       || (a =? 226) && (b =? 128)
          && ((128 <=? n) && (n <=? 138) || (n =? 168) || (n =? 169)
              || (n =? 175))
       || (a =? 226) && (b =? 129) && (n =? 159)
       || (a =? 227) && (b =? 128) && (n =? 128))%nat
  | _ => false
  end.

Fixpoint drop_spaces (l : list string) : list string :=
  match l with
  | [] => []
  | ch :: l' => if is_space ch then drop_spaces l' else l
  end.

(** The characters between the white space at both ends. *)
Definition trim (l : list string) : list string :=
  rev (drop_spaces (rev (drop_spaces l))).

(** [str.strip()]. *)
Definition strip (s : string) : string := join (trim (chars s)).

Definition lower_ascii (c : ascii) : ascii :=
  let n := nat_of_ascii c in
  if ((65 <=? n)%nat && (n <=? 90)%nat)%bool then ascii_of_nat (n + 32) else c.

(** [str.lower()] on the letters A to Z; the other bytes are left as they
    are.  No character outside A-Z has one of the letters of [lost] or
    [found] as its lower case, so the validation of the type is the same. *)
Fixpoint lower (s : string) : string :=
  match s with
  | EmptyString => EmptyString
  | String c s' => String (lower_ascii c) (lower s')
  end.

(** The one-character string holding a double quote. *)
Definition dquote : string := String (ascii_of_nat 34) EmptyString.

(** [s[:n]]: the first [n] characters. *)
Definition prefix_of (n : nat) (s : string) : string :=
  join (firstn n (chars s)).

(** The character U+00A0, a no-break space. *)
Definition nbsp : string :=
  String (ascii_of_nat 194) (String (ascii_of_nat 160) EmptyString).

(** Letters that differ at most in case. *)
Definition is_upper (c : ascii) : bool :=
  let n := nat_of_ascii c in (65 <=? n)%nat && (n <=? 90)%nat.

Definition same_letter (a b : ascii) : bool :=
  Ascii.eqb a b
  || is_upper a && (nat_of_ascii a + 32 =? nat_of_ascii b)%nat
  || is_upper b && (nat_of_ascii b + 32 =? nat_of_ascii a)%nat.

Fixpoint same_up_to_case (s t : string) : bool :=
  match s, t with
  | EmptyString, EmptyString => true
  | String a s', String b t' => same_letter a b && same_up_to_case s' t'
  | _, _ => false
  end.

(** Strings of continuation bytes, single characters, and lists of
    characters as [chars] gives them. *)
Fixpoint all_continuation (s : string) : bool :=
  match s with
  | EmptyString => true
  | String c s' => is_continuation c && all_continuation s'
  end.

Definition is_char (ch : string) : Prop :=
  exists c r, ch = String c r /\ all_continuation r = true.

Definition good (l : list string) : Prop :=
  Forall is_char l
  /\ Forall (fun ch => starts_with_continuation ch = false) (tl l).

(** ** Data model *)

(** A decoded PIL image, identified by its pixel data. *)
Record image := { pixels : list Z }.

(** A value of a JSON object. *)
Inductive jval :=
| JNull
| JBool (b : bool)
| JNum (n : Z)
| JStr (s : string).

(** A Python [dict] with string keys, in insertion order. *)
Definition dict (V : Type) := list (string * V).

Fixpoint dict_lookup {V} (d : dict V) (k : string) : option V :=
  match d with
  | [] => None
  | (k', v) :: d' => if String.eqb k' k then Some v else dict_lookup d' k
  end.

(** [d.get(k, default)]. *)
Definition dict_get {V} (d : dict V) (k : string) (default : V) : V :=
  match dict_lookup d k with Some v => v | None => default end.

(** [d[k] = v]: an existing key keeps its place. *)
Fixpoint dict_set {V} (d : dict V) (k : string) (v : V) : dict V :=
  match d with
  | [] => [(k, v)]
  | (k', v') :: d' =>
      if String.eqb k' k then (k', v) :: d' else (k', v') :: dict_set d' k v
  end.

(** [{**d, **ext}]. *)
Definition dict_update {V} (d ext : dict V) : dict V :=
  fold_left (fun acc kv => dict_set acc (fst kv) (snd kv)) ext d.

(** A Firestore document: [doc.id] and the fields of [doc.to_dict()] that
    [fetch_items_from_firestore] reads.  [None] is a missing field; a field
    that is present holds a string, and [metadata] a mapping. *)
Record document := {
  doc_id : string;
  doc_description : option string;
  doc_imageUrl : option string;
  doc_image_url : option string;
  doc_location : option string;
  doc_date : option string;
  doc_category : option string;
  doc_contactInfo : option string;
  doc_metadata : option (dict (option string))
}.

(** The dictionaries built by [fetch_items_from_firestore]. *)
Record item := {
  id : string;
  description : string;
  image_url : option string;
  metadata : dict (option string)
}.

(** The dictionary returned by [calculate_similarity]. *)
Record similarity_t := {
  overall_score : R;
  text_similarity : option R;
  image_similarity : option R;
  has_text : bool;
  has_image : bool
}.

(** One entry of [results] in [match_items]. *)
Record result := {
  item_id : string;
  similarity : similarity_t;
  res_description : string;
  res_metadata : dict (option string);
  res_has_image : bool;
  res_image_url : option string
}.

(** An uploaded file of a multipart request: its file name and what
    [Image.open(...).convert('RGB')] makes of it ([None]: it raises). *)
Record upload := { filename : string; pil_open : option image }.

Inductive request :=
| JsonRequest (data : dict jval)
| FormRequest (form : dict string) (files : dict upload).

(** The JSON bodies [match_items] answers with. *)
Inductive body :=
| ErrorBody (error : string)
| EmptyBody (message : string)
| MatchBody (query_type searched_in : string) (total_items : nat)
            (matches : list result).

Record response := { status : nat; payload : body }.

(** The keys of the response body. *)
Definition resp_error (r : response) : option string :=
  match payload r with ErrorBody e => Some e | _ => None end.

Definition resp_message (r : response) : option string :=
  match payload r with EmptyBody m => Some m | _ => None end.

Definition resp_matches (r : response) : option (list result) :=
  match payload r with
  | ErrorBody _ => None
  | EmptyBody _ => Some []
  | MatchBody _ _ _ ms => Some ms
  end.

Definition resp_total_items (r : response) : option nat :=
  match payload r with MatchBody _ _ n _ => Some n | _ => None end.

Definition resp_searched_in (r : response) : option string :=
  match payload r with MatchBody _ c _ _ => Some c | _ => None end.

Definition resp_query_type (r : response) : option string :=
  match payload r with MatchBody q _ _ _ => Some q | _ => None end.

(** ** The outside world and the calls made to it *)

(** [db] is [None] when Firebase failed to initialise; otherwise it gives the
    documents that [db.collection(name).stream()] yields.  [image_model_encode]
    is [None] where the encoder raises, [requests_get_image] is [None] where
    the download or the decoding raises. *)
Record Env := {
  db : option (string -> list document);
  text_model_encode : string -> vec;
  image_model_encode : image -> option vec;
  requests_get_image : string -> option image
}.

(** Which side of the comparison a call is made for: a label of the call
    site, not an argument of the Python function. *)
Inductive side := Query | Candidate.

Inductive event :=
| FirestoreStream (collection : string)
| HttpGet (who : side) (url : string)
| TextEncode (who : side) (text : string)
| ImageEncode (who : side) (img : image).

Inductive exn :=
| ZeroDivisionError
| AttributeError (type_name method : string).

(** [str(e)]. *)
Definition exn_str (e : exn) : string :=
  match e with
  | ZeroDivisionError => "float division by zero"
  | AttributeError t m => "'" ++ t ++ "' object has no attribute '" ++ m ++ "'"
  end.

(** Computations that may raise and that log their calls. *)
Definition M (A : Type) : Type := (exn + A) * list event.

Definition ret {A} (a : A) : M A := (inr a, []).

Definition raise {A} (e : exn) : M A := (inl e, []).

Definition tell (ev : event) : M unit := (inr tt, [ev]).

Definition bind {A B} (m : M A) (f : A -> M B) : M B :=
  match m with
  | (inl e, t) => (inl e, t)
  | (inr a, t) => let (r, t') := f a in (r, (t ++ t')%list)
  end.

Notation "x <- m ;; k" := (bind m (fun x => k))
  (at level 61, m at next level, right associativity).
Notation "' pat <- m ;; k" := (bind m (fun x => match x with pat => k end))
  (at level 61, pat pattern, m at next level, right associativity).

Fixpoint mapM {A B} (f : A -> M B) (l : list A) : M (list B) :=
  match l with
  | [] => ret []
  | x :: l' => y <- f x ;; ys <- mapM f l' ;; ret (y :: ys)
  end.

(** ** The functions of [app.py] *)

(** [load_image_from_url] (lines 59-68): every exception is caught and
    turned into [None]. *)
Definition load_image_from_url (E : Env) (who : side) (url : string)
  : M (option image) :=
  _ <- tell (HttpGet who url) ;;
  ret (requests_get_image E url).

(** [get_text_embedding] (lines 79-83). *)
Definition get_text_embedding (E : Env) (who : side) (text : string)
  : M (option vec) :=
  if negb (str_truthy text) || negb (str_truthy (strip text)) then ret None
  else
    _ <- tell (TextEncode who text) ;;
    ret (Some (text_model_encode E text)).

(** [get_image_embedding] (lines 86-92): an exception of the encoder is
    caught and turned into [None]. *)
Definition get_image_embedding (E : Env) (who : side) (img : image)
  : M (option vec) :=
  _ <- tell (ImageEncode who img) ;;
  ret (image_model_encode E img).

(** [a or b] on optional strings. *)
Definition py_or (a b : option string) : option string :=
  match a with
  | Some s => if str_truthy s then a else b
  | None => b
  end.

Definition or_default {A} (o : option A) (default : A) : A :=
  match o with Some a => a | None => default end.

(** The dictionary appended for one document (lines 105-117). *)
Definition item_of_document (d : document) : item :=
  {| id := doc_id d;
     description := or_default (doc_description d) EmptyString;
     image_url := py_or (doc_imageUrl d) (doc_image_url d);
     metadata :=
       dict_update
         [("location", doc_location d); ("date", doc_date d);
          ("category", doc_category d); ("contactInfo", doc_contactInfo d)]
         (or_default (doc_metadata d) []) |}.

(** [fetch_items_from_firestore] (lines 95-121).  A stream that raises half
    way leaves the items read so far: that is the list [stream] gives. *)
Definition fetch_items_from_firestore (E : Env) (collection_name : string)
  : M (list item) :=
  match db E with
  | None => ret []
  | Some stream =>
      _ <- tell (FirestoreStream collection_name) ;;
      ret (map item_of_document (stream collection_name))
  end.

Definition checked (o : option R) : M R :=
  match o with Some r => ret r | None => raise ZeroDivisionError end.

(** Lines 131-138: the text part, giving [(text_sim, has_text)]. *)
Definition text_part (E : Env) (query_text : string) (target_item : item)
  : M (R * bool) :=
  if str_truthy query_text && str_truthy (description target_item) then
    query_text_emb <- get_text_embedding E Query query_text ;;
    target_text_emb <-
      get_text_embedding E Candidate (description target_item) ;;
    match query_text_emb, target_text_emb with
    | Some q, Some t =>
        text_sim <- checked (cosine_similarity q t) ;;
        ret (text_sim, true)
    | _, _ => ret (0%R, false)
    end
  else ret (0%R, false).

(** Lines 140-150: the image part, giving [(image_sim, has_image)]. *)
Definition image_part (E : Env) (query_img : option image) (target_item : item)
  : M (R * bool) :=
  match query_img, image_url target_item with
  | Some qimg, Some url =>
      if str_truthy url then
        query_img_emb <- get_image_embedding E Query qimg ;;
        target_img <- load_image_from_url E Candidate url ;;
        match target_img with
        | Some timg =>
            target_img_emb <- get_image_embedding E Candidate timg ;;
            match query_img_emb, target_img_emb with
            | Some q, Some t =>
                image_sim <- checked (cosine_similarity q t) ;;
                ret (image_sim, true)
            | _, _ => ret (0%R, false)
            end
        | None => ret (0%R, false)
        end
      else ret (0%R, false)
  | _, _ => ret (0%R, false)
  end.

(** Lines 152-160. *)
Definition combined_score (has_text has_image : bool) (text_sim image_sim : R)
  : R :=
  if has_text && has_image then
    (TEXT_WEIGHT * text_sim + IMAGE_WEIGHT * image_sim)%R
  else if has_text then text_sim
  else if has_image then image_sim
  else 0%R.

(** [calculate_similarity] (lines 124-170). *)
Definition calculate_similarity (E : Env) (query_text : string)
    (query_img : option image) (target_item : item) : M similarity_t :=
  '(text_sim, has_text) <- text_part E query_text target_item ;;
  '(image_sim, has_image) <- image_part E query_img target_item ;;
  let score_percentage :=
    (combined_score has_text has_image text_sim image_sim * 100)%R in
  ret {| overall_score := py_round2 score_percentage;
         text_similarity :=
           if has_text then Some (py_round2 (text_sim * 100)) else None;
         image_similarity :=
           if has_image then Some (py_round2 (image_sim * 100)) else None;
         has_text := has_text;
         has_image := has_image |}.

(** [results.sort(key=lambda x: x['similarity']['overall_score'],
    reverse=True)]: a stable sort, largest score first. *)
Definition sort_key (x : result) : R := overall_score (similarity x).

Fixpoint insert_desc (x : result) (l : list result) : list result :=
  match l with
  | [] => [x]
  | y :: l' =>
      if Rlt_dec (sort_key x) (sort_key y) then y :: insert_desc x l'
      else x :: l
  end.

Definition sort_reverse (l : list result) : list result :=
  fold_right insert_desc [] l.

(** The entry appended to [results] (lines 257-264). *)
Definition result_entry (target : item) (sim : similarity_t) : result :=
  {| item_id := id target;
     similarity := sim;
     res_description :=
       if (100 <? py_len (description target))%nat
       then prefix_of 100 (description target) ++ "..."
       else description target;
     res_metadata := metadata target;
     res_has_image :=
       match image_url target with Some _ => true | None => false end;
     res_image_url := image_url target |}.

(** One turn of the loop over [target_items] (lines 254-264). *)
Definition score_target (E : Env) (query_text : string)
    (query_img : option image) (target : item) : M result :=
  sim <- calculate_similarity E query_text query_img target ;;
  ret (result_entry target sim).

Definition jval_type_name (v : jval) : string :=
  match v with
  | JNull => "NoneType"
  | JBool _ => "bool"
  | JNum _ => "int"
  | JStr _ => "str"
  end.

(** [v.lower()] and [v.strip()] on a JSON value: only a string has them. *)
Definition str_method (name : string) (f : string -> string) (v : jval)
  : M string :=
  match v with
  | JStr s => ret (f s)
  | _ => raise (AttributeError (jval_type_name v) name)
  end.

Definition jval_truthy (v : jval) : bool :=
  match v with
  | JNull => false
  | JBool b => b
  | JNum n => negb (n =? 0)%Z
  | JStr s => str_truthy s
  end.

(** Lines 206-230: [(query_type, query_text, query_img)].  An [imageUrl]
    that is true but not a string makes [requests.get] raise before anything
    is sent, which [load_image_from_url] turns into [None]. *)
Definition read_query (E : Env) (req : request)
  : M (string * string * option image) :=
  match req with
  | JsonRequest data =>
      query_type <-
        str_method "lower" lower (dict_get data "type" (JStr EmptyString)) ;;
      query_text <-
        str_method "strip" strip (dict_get data "text" (JStr EmptyString)) ;;
      let image_url := dict_get data "imageUrl" JNull in
      query_img <-
        (if jval_truthy image_url then
           match image_url with
           | JStr url => load_image_from_url E Query url
           | _ => ret None
           end
         else ret None) ;;
      ret (query_type, query_text, query_img)
  | FormRequest form files =>
      let query_type := lower (dict_get form "type" EmptyString) in
      let query_text := strip (dict_get form "text" EmptyString) in
      let query_img :=
        match dict_lookup files "image" with
        | Some image_file =>
            if str_truthy (filename image_file) then pil_open image_file
            else None
        | None => None
        end in
      ret (query_type, query_text, query_img)
  end.

Definition jsonify (code : nat) (b : body) : response :=
  {| status := code; payload := b |}.

(** Lines 234 and 237: the messages of the two validation errors. *)
Definition type_error_message : string :=
  "type must be " ++ dquote ++ "lost" ++ dquote ++ " or "
                  ++ dquote ++ "found" ++ dquote.

Definition text_error_message : string := "text description is required".

(** Line 248: the message for an empty collection. *)
Definition empty_message (search_collection : string) : string :=
  "No items found in " ++ search_collection ++ " collection".

(** Line 241: the collection searched for a query type. *)
Definition search_collection_of (query_type : string) : string :=
  if String.eqb query_type "lost" then "found_items" else "lost_items".

(** The body of the [try] block of [match_items] (lines 203-275). *)
Definition match_items_try (E : Env) (req : request) : M response :=
  match db E with
  | None => ret (jsonify 500 (ErrorBody "Firebase not initialized"))
  | Some _ =>
      '(query_type, query_text, query_img) <- read_query E req ;;
      if negb (str_truthy query_type)
         || negb (String.eqb query_type "lost" || String.eqb query_type "found")
      then ret (jsonify 400 (ErrorBody type_error_message))
      else if negb (str_truthy query_text)
      then ret (jsonify 400 (ErrorBody text_error_message))
      else
        let search_collection := search_collection_of query_type in
        target_items <- fetch_items_from_firestore E search_collection ;;
        match target_items with
        | [] =>
            ret (jsonify 200 (EmptyBody (empty_message search_collection)))
        | _ :: _ =>
            results <-
              mapM (score_target E query_text query_img) target_items ;;
            let results := sort_reverse results in
            ret (jsonify 200
                   (MatchBody query_type search_collection
                              (List.length results) (firstn 20 results)))
        end
  end.

(** [match_items] (lines 185-278): the response and the calls made. *)
Definition match_items (E : Env) (req : request) : response * list event :=
  match match_items_try E req with
  | (inr r, t) => (r, t)
  | (inl e, t) => (jsonify 500 (ErrorBody (exn_str e)), t)
  end.

(** ** Vocabulary of the statements *)

(** The collections streamed in a trace, in order. *)
Definition streamed (t : list event) : list string :=
  flat_map (fun ev => match ev with FirestoreStream c => [c] | _ => [] end) t.

Definition is_query_text_encode (ev : event) : bool :=
  match ev with TextEncode Query _ => true | _ => false end.

Definition is_query_image_encode (ev : event) : bool :=
  match ev with ImageEncode Query _ => true | _ => false end.

Definition count_events (p : event -> bool) (t : list event) : nat :=
  List.length (filter p t).

(** Largest [overall_score] first. *)
Definition sorted_desc (l : list result) : Prop :=
  Sorted (fun x y => (sort_key y <= sort_key x)%R) l.

(** The [type] and [text] fields as submitted: [data.get(k, '')] of a JSON
    body, [request.form.get(k, '')] of a form. *)
Definition submitted (k : string) (req : request) : jval :=
  match req with
  | JsonRequest data => dict_get data k (JStr EmptyString)
  | FormRequest form _ => JStr (dict_get form k EmptyString)
  end.

(** The same request with another [type] field. *)
Definition with_type (req : request) (ty : string) : request :=
  match req with
  | JsonRequest data => JsonRequest (dict_set data "type" (JStr ty))
  | FormRequest form files => FormRequest (dict_set form "type" ty) files
  end.

(** A text that [get_text_embedding] embeds. *)
Definition embeddable (s : string) : bool :=
  str_truthy s && str_truthy (strip s).

(** Truth values of [target_item.get('description')] and of
    [target_item.get('image_url')]. *)
Definition has_description (it : item) : bool := str_truthy (description it).

Definition has_image_url (it : item) : bool :=
  match image_url it with Some url => str_truthy url | None => false end.

(** The candidates of a collection, as [fetch_items_from_firestore] builds
    them. *)
Definition candidates (stream : string -> list document) (coll : string)
  : list item :=
  map item_of_document (stream coll).

(** A candidate and the entry the loop of [match_items] appends for it. *)
Definition scored (E : Env) (query_text : string) (query_img : option image)
    (it : item) (r : result) : Prop :=
  exists sim t,
    calculate_similarity E query_text query_img it = (inr sim, t)
    /\ r = result_entry it sim.

(** ** Scenarios *)

(** A document with a description and, maybe, an [imageUrl]. *)
Definition doc_of (i desc : string) (url : option string) : document :=
  {| doc_id := i;
     doc_description := Some desc;
     doc_imageUrl := url;
     doc_image_url := None;
     doc_location := None;
     doc_date := None;
     doc_category := None;
     doc_contactInfo := None;
     doc_metadata := None |}.

(** An initialised repository whose [found_items] collection holds [found],
    encoders that map everything to one unit vector, no reachable image. *)
Definition env_with (found : list document) : Env :=
  {| db := Some (fun c => if String.eqb c "found_items" then found else []);
     text_model_encode := fun _ => [1%R];
     image_model_encode := fun _ => Some [1%R];
     requests_get_image := fun _ => None |}.

(** The repository failed to initialise. *)
Definition env_no_db : Env :=
  {| db := None;
     text_model_encode := fun _ => [1%R];
     image_model_encode := fun _ => Some [1%R];
     requests_get_image := fun _ => None |}.

(** A text encoder under which the query and the stored description point
    in opposite directions. *)
Definition env_opposed : Env :=
  {| db := Some (fun c => if String.eqb c "found_items"
                          then [doc_of "f1" "keys" None] else []);
     text_model_encode :=
       fun s => if String.eqb s "keys" then [(-1)%R] else [1%R];
     image_model_encode := fun _ => Some [1%R];
     requests_get_image := fun _ => None |}.

Definition lost_wallet : request :=
  JsonRequest [("type", JStr "lost"); ("text", JStr "black wallet")].

Definition maybe_keys : request :=
  JsonRequest [("type", JStr "maybe"); ("text", JStr "keys")].

(** A JSON body whose text is a space and a no-break space. *)
Definition found_blank : request :=
  JsonRequest [("type", JStr "found"); ("text", JStr (" " ++ nbsp))].

(** A JSON body whose [type] is [null]. *)
Definition null_type_keys : request :=
  JsonRequest [("type", JNull); ("text", JStr "keys")].

(** A form with an uploaded picture of the lost wallet. *)
Definition lost_wallet_with_picture : request :=
  FormRequest [("type", "lost"); ("text", "black wallet")]
              [("image", {| filename := "wallet.jpg";
                            pil_open := Some {| pixels := [0%Z] |} |})].

(** ** The health endpoint *)

(** The JSON body of [health_check]. *)
Record health_body := {
  health_status : string;
  health_message : string;
  health_firebase : string;
  health_models_loaded : bool
}.

(** [health_check] (lines 173-182): the status code and the body. *)
Definition health_check (E : Env) : nat * health_body :=
  let firebase_status :=
    match db E with Some _ => "connected" | None => "disconnected" end in
  (200%nat,
   {| health_status := "healthy";
      health_message := "Lost and Found AI Matcher is running";
      health_firebase := firebase_status;
      health_models_loaded := true |}).

(** ** Further vocabulary *)

(** The entries whose [overall_score] is [k]. *)
Definition same_score (k : R) (x : result) : bool :=
  if Req_dec_T (sort_key x) k then true else false.

(** The calls made for images while candidates are scored: the download of
    a candidate's image and every image embedding. *)
Definition is_image_work (ev : event) : bool :=
  match ev with
  | HttpGet Candidate _ => true
  | ImageEncode _ _ => true
  | _ => false
  end.

(** The URLs of the candidates' images downloaded in a trace, in order. *)
Definition candidate_downloads (t : list event) : list string :=
  flat_map (fun ev => match ev with
                      | HttpGet Candidate url => [url]
                      | _ => []
                      end) t.

(** The non-empty image URLs of a list of candidates, in order. *)
Definition usable_image_urls (items : list item) : list string :=
  flat_map (fun it => match image_url it with
                      | Some url => if str_truthy url then [url] else []
                      | None => []
                      end) items.

(** A JSON body that gives the picture of the lost wallet by its URL. *)
Definition lost_wallet_with_url : request :=
  JsonRequest [("type", JStr "lost"); ("text", JStr "black wallet");
               ("imageUrl", JStr "http://img/wallet.jpg")].

(** Truth value of an optional string field of a document. *)
Definition field_truthy (o : option string) : bool :=
  match o with Some s => str_truthy s | None => false end.

(** An environment in which every image can be downloaded and embedded. *)
Definition env_images (found : list document) : Env :=
  {| db := Some (fun c => if String.eqb c "found_items" then found else []);
     text_model_encode := fun _ => [1%R];
     image_model_encode := fun _ => Some [1%R];
     requests_get_image := fun _ => Some {| pixels := [1%Z] |} |}.

(** An environment whose image encoder fails on every image. *)
Definition env_image_model_fails (found : list document) : Env :=
  {| db := Some (fun c => if String.eqb c "found_items" then found else []);
     text_model_encode := fun _ => [1%R];
     image_model_encode := fun _ => None;
     requests_get_image := fun _ => Some {| pixels := [1%Z] |} |}.

(** * Properties *)

(** ** Dot product, norm and cosine *)

Section Cosine.

Lemma np_dot_self_nonneg (v : vec) : (0 <= np_dot v v)%R.
Proof.
  induction v as [|x v IH]; simpl; [lra|nra].
Qed.

Lemma np_dot_comm (a b : vec) : np_dot a b = np_dot b a.
Proof.
  revert b; induction a as [|x a IH]; intros [|y b]; simpl; auto.
  rewrite IH; ring.
Qed.

(** Cauchy-Schwarz, also for arrays of different lengths (the longer one is
    cut by [np_dot] but counts in full in its norm). *)
Lemma cauchy_schwarz (a b : vec) :
  (np_dot a b * np_dot a b <= np_dot a a * np_dot b b)%R.
Proof.
  revert b; induction a as [|x a IH]; intros [|y b]; simpl.
  - lra.
  - lra.
  - pose proof (np_dot_self_nonneg a). nra.
  - specialize (IH b).
    pose proof (np_dot_self_nonneg a) as Ha.
    pose proof (np_dot_self_nonneg b) as Hb.
    set (d := np_dot a b) in *. set (A := np_dot a a) in *.
    set (B := np_dot b b) in *.
    assert (Hk : (2 * (x * y) * d <= x * x * B + y * y * A)%R).
    { assert (H0 : (0 <= x * x * B + y * y * A)%R) by nra.
      destruct (Rle_dec (2 * (x * y) * d) 0) as [Hn|Hp]; [lra|].
      apply Rnot_le_lt in Hp.
      assert (Hsq : ((2 * (x * y) * d) * (2 * (x * y) * d)
                     <= (x * x * B + y * y * A) * (x * x * B + y * y * A))%R).
      { assert (H1 : (0 <= (x * x * B - y * y * A) * (x * x * B - y * y * A))%R)
          by apply Rle_0_sqr.
        assert (H2 : (0 <= (x * y) * (x * y) * (A * B - d * d))%R).
        { apply Rmult_le_pos; [apply Rle_0_sqr | lra]. }
        nra. }
      apply Rsqr_incr_0_var in Hsq; auto. }
    nra.
Qed.

Lemma norm_nonneg (v : vec) : (0 <= np_linalg_norm v)%R.
Proof. apply sqrt_pos. Qed.

Lemma norm_sqr (v : vec) :
  (np_linalg_norm v * np_linalg_norm v = np_dot v v)%R.
Proof. apply sqrt_sqrt, np_dot_self_nonneg. Qed.

Lemma norm_prod_pos (a b : vec) :
  (0 < np_linalg_norm a * np_linalg_norm b
   <-> 0 < np_linalg_norm a /\ 0 < np_linalg_norm b)%R.
Proof.
  pose proof (norm_nonneg a). pose proof (norm_nonneg b).
  split; [intros Hp | intros [Ha Hb]]; [split|]; nra.
Qed.

Lemma cosine_similarity_value (a b : vec) :
  cosine_similarity a b = Some (cosine_value a b).
Proof.
  unfold cosine_similarity, cosine_value, py_truediv.
  destruct (Rlt_dec 0 _) as [Hp|Hn]; auto.
  destruct (Req_dec_T _ 0) as [Hz|Hz]; auto. lra.
Qed.

Lemma cosine_value_bounds (a b : vec) : (-1 <= cosine_value a b <= 1)%R.
Proof.
  unfold cosine_value.
  destruct (Rlt_dec 0 _) as [Hp|Hn]; [|lra].
  set (n := (np_linalg_norm a * np_linalg_norm b)%R) in *.
  assert (Hsq : (np_dot a b * np_dot a b <= n * n)%R).
  { pose proof (cauchy_schwarz a b) as H.
    rewrite <- (norm_sqr a), <- (norm_sqr b) in H. unfold n. nra. }
  assert (Habs : (- n <= np_dot a b <= n)%R) by (split; nra).
  split.
  - apply Rmult_le_reg_r with n; auto.
    unfold Rdiv. rewrite Rmult_assoc, Rinv_l by lra. lra.
  - apply Rmult_le_reg_r with n; auto.
    unfold Rdiv. rewrite Rmult_assoc, Rinv_l by lra. lra.
Qed.

End Cosine.

(** ** Rounding *)

Section Rounding.

Lemma Int_part_bounds (y : R) : (IZR (Int_part y) <= y < IZR (Int_part y) + 1)%R.
Proof. pose proof (base_Int_part y). lra. Qed.

Lemma Int_part_IZR (z : Z) : Int_part (IZR z) = z.
Proof.
  pose proof (Int_part_bounds (IZR z)) as [H1 H2].
  apply le_IZR in H1.
  rewrite <- plus_IZR in H2. apply lt_IZR in H2. lia.
Qed.

Lemma round_half_even_cases (y : R) :
  (round_half_even y = Int_part y /\ y - IZR (Int_part y) <= 1 / 2)%R
  \/ (round_half_even y = (Int_part y + 1)%Z /\ 1 / 2 <= y - IZR (Int_part y))%R.
Proof.
  unfold round_half_even.
  destruct (Rlt_dec _ _) as [H1|H1]; [left; split; auto; lra|].
  destruct (Rlt_dec _ _) as [H2|H2]; [right; split; auto; lra|].
  destruct (Z.even _); [left | right]; split; auto; lra.
Qed.

Lemma round_half_even_IZR (z : Z) : round_half_even (IZR z) = z.
Proof.
  destruct (round_half_even_cases (IZR z)) as [[-> _]|[_ H]];
    rewrite Int_part_IZR in *; auto. lra.
Qed.

(** Rounding stays between any two integers that enclose the argument. *)
Lemma round_half_even_between (lo hi : Z) (y : R) :
  (IZR lo <= y <= IZR hi)%R -> (lo <= round_half_even y <= hi)%Z.
Proof.
  intros [Hlo Hhi].
  pose proof (Int_part_bounds y) as [H1 H2].
  assert (Hf1 : (lo <= Int_part y)%Z).
  { assert (H : (IZR lo < IZR (Int_part y + 1))%R) by (rewrite plus_IZR; lra).
    apply lt_IZR in H. lia. }
  assert (Hf2 : (Int_part y <= hi)%Z).
  { apply le_IZR. lra. }
  destruct (round_half_even_cases y) as [[-> _]|[-> H]]; [lia|].
  split; [lia|].
  assert (H' : (IZR (Int_part y) < IZR hi)%R) by lra.
  apply lt_IZR in H'. lia.
Qed.

Lemma py_round2_between (lo hi : Z) (x : R) :
  (IZR lo <= x <= IZR hi)%R -> (IZR lo <= py_round2 x <= IZR hi)%R.
Proof.
  intros [Hlo Hhi]. unfold py_round2.
  assert (H : (lo * 100 <= round_half_even (x * 100) <= hi * 100)%Z).
  { apply round_half_even_between. rewrite !mult_IZR. lra. }
  destruct H as [Ha Hb]. apply IZR_le in Ha, Hb. rewrite mult_IZR in Ha, Hb.
  lra.
Qed.

Lemma py_round2_IZR (z : Z) : py_round2 (IZR z) = IZR z.
Proof.
  unfold py_round2. rewrite <- mult_IZR, round_half_even_IZR, mult_IZR.
  field.
Qed.

End Rounding.

(** ** The scorer: [cosine_similarity] *)

Lemma norm_singleton_one : np_linalg_norm [1%R] = 1%R.
Proof.
  unfold np_linalg_norm; simpl.
  replace (1 * 1 + 0)%R with 1%R by ring. apply sqrt_1.
Qed.

Lemma norm_singleton_zero : np_linalg_norm [0%R] = 0%R.
Proof.
  unfold np_linalg_norm; simpl.
  replace (0 * 0 + 0)%R with 0%R by ring. apply sqrt_0.
Qed.

(** C4.  [cosine_similarity A B] is [dot(A,B) / (|A| * |B|)] when both norms
    are positive, it is [0] when one of the norms is zero, and it never
    divides by zero ([None] is the outcome of a division by zero). *)
Theorem cosine_similarity_safe (A B : vec) :
  ((0 < np_linalg_norm A)%R -> (0 < np_linalg_norm B)%R ->
   cosine_similarity A B
   = Some (np_dot A B / (np_linalg_norm A * np_linalg_norm B))%R)
  /\ (np_linalg_norm A = 0%R \/ np_linalg_norm B = 0%R ->
      cosine_similarity A B = Some 0%R)
  /\ cosine_similarity A B <> None.
Proof.
  rewrite cosine_similarity_value. unfold cosine_value.
  repeat split.
  - intros HA HB. destruct (Rlt_dec 0 _) as [Hp|Hn]; auto.
    exfalso. apply Hn, norm_prod_pos. auto.
  - intros H0. destruct (Rlt_dec 0 _) as [Hp|Hn]; auto.
    exfalso. apply norm_prod_pos in Hp. destruct H0; lra.
  - discriminate.
Qed.

Lemma cosine_similarity_safe_witness :
  (0 < np_linalg_norm [1%R])%R
  /\ np_linalg_norm [0%R] = 0%R
  /\ cosine_similarity [1%R] [1%R]
     = Some (np_dot [1%R] [1%R]
             / (np_linalg_norm [1%R] * np_linalg_norm [1%R]))%R
  /\ cosine_similarity [1%R] [0%R] = Some 0%R.
Proof.
  assert (H1 : (0 < np_linalg_norm [1%R])%R)
    by (rewrite norm_singleton_one; lra).
  repeat split.
  - exact H1.
  - exact norm_singleton_zero.
  - exact (proj1 (cosine_similarity_safe [1%R] [1%R]) H1 H1).
  - exact (proj1 (proj2 (cosine_similarity_safe [1%R] [0%R]))
             (or_intror norm_singleton_zero)).
Defined.

(** ** The combiner: [calculate_similarity] *)

Lemma text_part_eq (E : Env) (query_text : string) (target_item : item) :
  text_part E query_text target_item =
  let d := description target_item in
  if str_truthy query_text && str_truthy d then
    match embeddable query_text, embeddable d with
    | true, true =>
        (inr (cosine_value (text_model_encode E query_text)
                           (text_model_encode E d), true),
         [TextEncode Query query_text; TextEncode Candidate d])
    | true, false => (inr (0%R, false), [TextEncode Query query_text])
    | false, true => (inr (0%R, false), [TextEncode Candidate d])
    | false, false => (inr (0%R, false), [])
    end
  else (inr (0%R, false), []).
Proof.
  unfold text_part, get_text_embedding, embeddable. cbv zeta.
  destruct (str_truthy query_text); cbn [andb]; auto.
  destruct (str_truthy (description target_item)); cbn [andb negb orb]; auto.
  destruct (str_truthy (strip query_text));
    destruct (str_truthy (strip (description target_item)));
    cbn [negb]; unfold bind, tell, ret; cbn; auto.
  rewrite cosine_similarity_value. reflexivity.
Qed.

Lemma image_part_eq (E : Env) (query_img : option image) (target_item : item) :
  image_part E query_img target_item =
  match query_img, image_url target_item with
  | Some qimg, Some url =>
      if str_truthy url then
        match requests_get_image E url with
        | Some timg =>
            match image_model_encode E qimg, image_model_encode E timg with
            | Some q, Some t =>
                (inr (cosine_value q t, true),
                 [ImageEncode Query qimg; HttpGet Candidate url;
                  ImageEncode Candidate timg])
            | _, _ =>
                (inr (0%R, false),
                 [ImageEncode Query qimg; HttpGet Candidate url;
                  ImageEncode Candidate timg])
            end
        | None =>
            (inr (0%R, false), [ImageEncode Query qimg; HttpGet Candidate url])
        end
      else (inr (0%R, false), [])
  | _, _ => (inr (0%R, false), [])
  end.
Proof.
  unfold image_part, get_image_embedding, load_image_from_url.
  destruct query_img as [qimg|]; auto.
  destruct (image_url target_item) as [url|]; auto.
  destruct (str_truthy url); auto.
  unfold bind, tell, ret; cbn.
  destruct (requests_get_image E url) as [timg|]; cbn; auto.
  destruct (image_model_encode E qimg) as [q|];
    destruct (image_model_encode E timg) as [t|]; cbn; auto.
  rewrite cosine_similarity_value. reflexivity.
Qed.

Lemma text_part_total (E : Env) (query_text : string) (target_item : item) :
  exists text_sim ht t,
    text_part E query_text target_item = (inr (text_sim, ht), t)
    /\ (-1 <= text_sim <= 1)%R
    /\ (ht = false -> text_sim = 0%R).
Proof.
  rewrite text_part_eq. cbv zeta.
  destruct (_ && _); [destruct (embeddable query_text);
                      destruct (embeddable (description target_item))|];
    do 3 eexists; (split; [reflexivity|]);
    (split; [try apply cosine_value_bounds; lra | auto; discriminate]).
Qed.

Lemma image_part_total (E : Env) (query_img : option image)
    (target_item : item) :
  exists image_sim hi t,
    image_part E query_img target_item = (inr (image_sim, hi), t)
    /\ (-1 <= image_sim <= 1)%R
    /\ (hi = false -> image_sim = 0%R).
Proof.
  rewrite image_part_eq.
  destruct query_img as [qimg|];
    [destruct (image_url target_item) as [url|];
     [destruct (str_truthy url);
      [destruct (requests_get_image E url) as [timg|];
       [destruct (image_model_encode E qimg);
        destruct (image_model_encode E timg)|]|]|]|];
    do 3 eexists; (split; [reflexivity|]);
    (split; [try apply cosine_value_bounds; lra | auto; discriminate]).
Qed.

Lemma calculate_similarity_eq (E : Env) (query_text : string)
    (query_img : option image) (target_item : item)
    (text_sim image_sim : R) (ht hi : bool) (t1 t2 : list event) :
  text_part E query_text target_item = (inr (text_sim, ht), t1) ->
  image_part E query_img target_item = (inr (image_sim, hi), t2) ->
  calculate_similarity E query_text query_img target_item =
  (inr {| overall_score :=
            py_round2 (combined_score ht hi text_sim image_sim * 100);
          text_similarity :=
            if ht then Some (py_round2 (text_sim * 100)) else None;
          image_similarity :=
            if hi then Some (py_round2 (image_sim * 100)) else None;
          has_text := ht;
          has_image := hi |}, (t1 ++ t2)%list).
Proof.
  intros Ht Hi. unfold calculate_similarity, bind, ret.
  rewrite Ht, Hi. rewrite app_nil_r. reflexivity.
Qed.

Lemma py_round2_zero : py_round2 (0 * 100) = 0%R.
Proof. replace (0 * 100)%R with (IZR 0) by ring. apply py_round2_IZR. Qed.

(** C1.  For every candidate that is scored, with [text_sim] and [image_sim]
    the two cosine similarities and [has_t], [has_i] telling which of them
    were evaluated: the combined score is [0.3 * text_sim + 0.7 * image_sim]
    when both are, the one similarity that is when only one is, and [0] when
    none is; [overall_score] is that score times 100, rounded to two places
    as the similarity fields are, so that with one modality it is exactly
    that modality's similarity field. *)
Theorem calculate_similarity_overall_score (E : Env) (query_text : string)
    (query_img : option image) (target_item : item) :
  exists text_sim image_sim has_t has_i t1 t2 sim,
    text_part E query_text target_item = (inr (text_sim, has_t), t1)
    /\ image_part E query_img target_item = (inr (image_sim, has_i), t2)
    /\ calculate_similarity E query_text query_img target_item
       = (inr sim, (t1 ++ t2)%list)
    /\ has_text sim = has_t /\ has_image sim = has_i
    /\ overall_score sim
       = py_round2 (match has_t, has_i with
                    | true, true => 0.3 * text_sim + 0.7 * image_sim
                    | true, false => text_sim
                    | false, true => image_sim
                    | false, false => 0
                    end * 100)%R
    /\ match has_t, has_i with
       | true, true =>
           text_similarity sim = Some (py_round2 (text_sim * 100))
           /\ image_similarity sim = Some (py_round2 (image_sim * 100))
       | true, false =>
           text_similarity sim = Some (overall_score sim)
           /\ image_similarity sim = None
       | false, true =>
           text_similarity sim = None
           /\ image_similarity sim = Some (overall_score sim)
       | false, false =>
           text_similarity sim = None /\ image_similarity sim = None
           /\ overall_score sim = 0%R
       end.
Proof.
  destruct (text_part_total E query_text target_item)
    as (text_sim & ht & t1 & Ht & _ & _).
  destruct (image_part_total E query_img target_item)
    as (image_sim & hi & t2 & Hi & _ & _).
  exists text_sim, image_sim, ht, hi, t1, t2.
  eexists. split; [exact Ht|]. split; [exact Hi|].
  split; [apply (calculate_similarity_eq _ _ _ _ _ _ _ _ _ _ Ht Hi)|].
  cbn [has_text has_image overall_score text_similarity image_similarity].
  split; [reflexivity|]. split; [reflexivity|].
  unfold combined_score, TEXT_WEIGHT, IMAGE_WEIGHT.
  destruct ht, hi; cbn [andb]; repeat split;
    try reflexivity; try (f_equal; lra); apply py_round2_zero.
Qed.

Lemma bind_ok {A B} (a : A) (t : list event) (f : A -> M B) :
  bind (inr a, t) f = (fst (f a), (t ++ snd (f a))%list).
Proof. unfold bind. destruct (f a). reflexivity. Qed.

Lemma bind_raise {A B} (e : exn) (t : list event) (f : A -> M B) :
  bind (inl e, t) f = (inl e, t).
Proof. reflexivity. Qed.

Lemma calculate_similarity_total (E : Env) (query_text : string)
    (query_img : option image) (target_item : item) :
  exists sim t,
    calculate_similarity E query_text query_img target_item = (inr sim, t).
Proof.
  destruct (text_part_total E query_text target_item)
    as (ts & ht & t1 & Ht & _).
  destruct (image_part_total E query_img target_item)
    as (im & hi & t2 & Hi & _).
  rewrite (calculate_similarity_eq _ _ _ _ _ _ _ _ _ _ Ht Hi). eauto.
Qed.

(** ** Ranking: the stable sort and the cut *)

Section Ranking.

Lemma insert_desc_perm (x : result) (l : list result) :
  Permutation (insert_desc x l) (x :: l).
Proof.
  induction l as [|y l IH]; simpl; auto.
  destruct (Rlt_dec _ _); auto.
  rewrite IH. apply perm_swap.
Qed.

Lemma sort_reverse_perm (l : list result) : Permutation (sort_reverse l) l.
Proof.
  induction l as [|x l IH]; simpl; auto.
  rewrite insert_desc_perm. auto.
Qed.

Lemma sort_reverse_length (l : list result) :
  List.length (sort_reverse l) = List.length l.
Proof. apply Permutation_length, sort_reverse_perm. Qed.

Lemma insert_desc_sorted (x : result) (l : list result) :
  sorted_desc l -> sorted_desc (insert_desc x l).
Proof.
  unfold sorted_desc.
  induction l as [|y l IH]; intros Hs; simpl.
  - repeat constructor.
  - destruct (Rlt_dec (sort_key x) (sort_key y)) as [Hlt|Hge].
    + inversion Hs as [|? ? Hs' Hhd]; subst.
      constructor; [apply IH; exact Hs'|].
      destruct l as [|z l]; simpl.
      * constructor. lra.
      * destruct (Rlt_dec (sort_key x) (sort_key z)); constructor;
          [inversion Hhd; subst; assumption | lra].
    + constructor; [exact Hs|]. constructor. lra.
Qed.

Lemma sort_reverse_sorted (l : list result) : sorted_desc (sort_reverse l).
Proof.
  induction l as [|x l IH]; simpl.
  - constructor.
  - apply insert_desc_sorted, IH.
Qed.

Lemma firstn_sorted (n : nat) (l : list result) :
  sorted_desc l -> sorted_desc (firstn n l).
Proof.
  unfold sorted_desc. revert l.
  induction n as [|n IH]; intros [|x l] Hs; simpl; try constructor.
  - apply IH. inversion Hs; assumption.
  - inversion Hs as [|? ? _ Hhd]; subst.
    destruct l as [|y l]; destruct n; simpl; constructor.
    inversion Hhd; assumption.
Qed.

End Ranking.

(** ** The loop over the candidates *)

Section Loop.

Variable E : Env.
Variable query_text : string.
Variable query_img : option image.

Lemma score_target_eq (it : item) (sim : similarity_t) (t : list event) :
  calculate_similarity E query_text query_img it = (inr sim, t) ->
  score_target E query_text query_img it = (inr (result_entry it sim), t).
Proof.
  intros H. unfold score_target. rewrite H, bind_ok. cbn.
  rewrite app_nil_r. reflexivity.
Qed.

Lemma mapM_score_target (items : list item) :
  exists results,
    mapM (score_target E query_text query_img) items
    = (inr results,
       flat_map (fun it => snd (calculate_similarity E query_text query_img it))
                items)
    /\ Forall2 (scored E query_text query_img) items results.
Proof.
  induction items as [|it items (results & IH & HF)]; simpl.
  - exists []. split; [reflexivity | constructor].
  - destruct (calculate_similarity_total E query_text query_img it)
      as (sim & t & Hsim).
    exists (result_entry it sim :: results). split.
    + rewrite (score_target_eq _ _ _ Hsim), bind_ok, IH, bind_ok, Hsim.
      cbn. rewrite !app_nil_r. reflexivity.
    + constructor; [exists sim, t; auto | exact HF].
Qed.

Lemma Forall2_scored_length (items : list item) (results : list result) :
  Forall2 (scored E query_text query_img) items results -> List.length results = List.length items.
Proof. induction 1; simpl; auto. Qed.


Lemma Forall2_scored_in_r (items : list item) (results : list result)
    (r : result) :
  Forall2 (scored E query_text query_img) items results -> In r results ->
  exists it, In it items /\ scored E query_text query_img it r.
Proof.
  induction 1 as [|a b l l' Hab _ IH]; simpl; [tauto|].
  intros [->|Hin]; [eauto|].
  destruct (IH Hin) as (it & Hit & Hs). eauto.
Qed.

End Loop.

(** ** Reading the request *)

Lemma read_query_strings (E : Env) (req : request) (ty tx : string) :
  submitted "type" req = JStr ty ->
  submitted "text" req = JStr tx ->
  exists img t0,
    read_query E req = (inr (lower ty, strip tx, img), t0)
    /\ (t0 = [] \/ exists url, t0 = [HttpGet Query url]).
Proof.
  destruct req as [data|form files]; unfold submitted, read_query.
  - intros -> ->. cbn [str_method]. unfold ret at 1. rewrite bind_ok.
    cbn beta. unfold ret at 1. rewrite bind_ok. cbn beta zeta.
    destruct (dict_get data "imageUrl" JNull) as [|b|n|url];
      cbn [jval_truthy];
      [|destruct b|destruct (negb (n =? 0)%Z)|destruct (str_truthy url)];
      try (do 2 eexists; split; [reflexivity | left; reflexivity]).
    unfold load_image_from_url, tell, ret, bind. cbn.
    do 2 eexists; split; [reflexivity | right; eauto].
  - intros Hty Htx. injection Hty as ->. injection Htx as ->.
    do 2 eexists; split; [reflexivity | left; reflexivity].
Qed.

(** ** The orchestrator on a request that passes validation *)

Lemma match_items_valid (E : Env) (req : request)
    (stream : string -> list document) (ty txt : string)
    (img : option image) (t0 : list event) :
  db E = Some stream ->
  read_query E req = (inr (ty, txt, img), t0) ->
  ty = "lost" \/ ty = "found" ->
  str_truthy txt = true ->
  let coll := search_collection_of ty in
  let items := candidates stream coll in
  exists results,
    Forall2 (scored E txt img) items results
    /\ match_items E req =
       (match items with
        | [] => jsonify 200 (EmptyBody (empty_message coll))
        | _ :: _ =>
            jsonify 200 (MatchBody ty coll (List.length items)
                                   (firstn 20 (sort_reverse results)))
        end,
        (t0 ++ FirestoreStream coll
            :: flat_map (fun it => snd (calculate_similarity E txt img it))
                        items)%list).
Proof.
  intros Hdb Hrq Hty Htxt coll items.
  destruct (mapM_score_target E txt img items) as (results & Hmap & HF).
  exists results. split; [exact HF|].
  unfold match_items, match_items_try. rewrite Hdb, Hrq, bind_ok.
  cbn beta iota. rewrite Htxt.
  assert (Hv : negb (str_truthy ty)
               || negb (String.eqb ty "lost" || String.eqb ty "found") = false)
    by (destruct Hty; subst ty; reflexivity).
  rewrite Hv. cbn [negb].
  unfold fetch_items_from_firestore. rewrite Hdb.
  unfold tell. rewrite bind_ok. cbn [fst snd ret]. rewrite bind_ok.
  cbn beta.
  fold (candidates stream (search_collection_of ty)). fold coll. fold items.
  destruct items as [|it items'] eqn:Hitems.
  - cbn. reflexivity.
  - rewrite Hmap. rewrite bind_ok. cbn [fst snd ret].
    rewrite sort_reverse_length, (Forall2_scored_length _ _ _ _ _ HF).
    rewrite !app_nil_r. cbn [app]. reflexivity.
Qed.

Lemma match_items_cases (E : Env) (req : request) :
  (exists code e, fst (match_items E req) = jsonify code (ErrorBody e))
  \/ (exists stream ty txt img t0,
        db E = Some stream
        /\ read_query E req = (inr (ty, txt, img), t0)
        /\ (ty = "lost" \/ ty = "found")
        /\ str_truthy txt = true).
Proof.
  unfold match_items, match_items_try.
  destruct (db E) as [stream|] eqn:Hdb; [|left; cbn; eauto].
  destruct (read_query E req) as [[e|[[ty txt] img]] t0] eqn:Hrq.
  - rewrite bind_raise. left; cbn; eauto.
  - rewrite bind_ok. cbn beta iota.
    destruct (negb (str_truthy ty) || _) eqn:Hv; [left; cbn; eauto|].
    destruct (str_truthy txt) eqn:Htxt; cbn [negb]; [|left; cbn; eauto].
    right. exists stream, ty, txt, img, t0. repeat split; auto.
    apply orb_false_iff in Hv as [_ Hv].
    apply negb_false_iff, orb_true_iff in Hv.
    destruct Hv as [Hv|Hv]; apply String.eqb_eq in Hv; auto.
Qed.

Lemma in_firstn {A} (n : nat) (l : list A) (x : A) :
  In x (firstn n l) -> In x l.
Proof.
  revert l; induction n as [|n IH]; intros [|y l]; simpl; try tauto.
  intros [->|H]; auto.
Qed.

(** ** Ranked, truncated results *)

(** C2, as the code has it.  For every match request the returned [matches]
    are sorted by [overall_score], largest first, and are at most 20; a
    returned [total_items] is the number of candidates of the searched
    collection, which is then not empty; and a valid request over a
    non-empty collection does return it.  (Over an empty collection no
    [total_items] is returned.) *)
Theorem match_items_ranking (E : Env) (req : request) :
  let r := fst (match_items E req) in
  (forall ms, resp_matches r = Some ms ->
     sorted_desc ms /\ (List.length ms <= 20)%nat)
  /\ (forall n, resp_total_items r = Some n ->
        exists stream coll,
          db E = Some stream /\ resp_searched_in r = Some coll
          /\ n = List.length (candidates stream coll) /\ n <> 0%nat
          /\ exists ms, resp_matches r = Some ms
                        /\ List.length ms = Nat.min 20 n)
  /\ (forall stream ty txt img t0,
        db E = Some stream ->
        read_query E req = (inr (ty, txt, img), t0) ->
        ty = "lost" \/ ty = "found" ->
        str_truthy txt = true ->
        candidates stream (search_collection_of ty) <> [] ->
        resp_total_items r
        = Some (List.length (candidates stream (search_collection_of ty)))).
Proof.
  cbv zeta.
  destruct (match_items_cases E req)
    as [(code & e & Herr)|(stream & ty & txt & img & t0 & Hdb & Hrq & Hty & Htx)].
  - rewrite Herr. unfold resp_matches, resp_total_items; cbn.
    repeat split; try discriminate.
    intros stream ty txt img t0 Hdb Hrq Hty Htx Hne.
    destruct (match_items_valid E req stream ty txt img t0 Hdb Hrq Hty Htx)
      as (results & _ & Hm). cbv zeta in Hm. rewrite Hm in Herr.
    destruct (candidates stream (search_collection_of ty));
      [congruence | discriminate].
  - destruct (match_items_valid E req stream ty txt img t0 Hdb Hrq Hty Htx)
      as (results & HF & Hm). cbv zeta in Hm. rewrite Hm.
    apply Forall2_scored_length in HF.
    assert (Hsame : forall stream' ty' txt' img' t0',
               db E = Some stream' ->
               read_query E req = (inr (ty', txt', img'), t0') ->
               stream' = stream /\ ty' = ty).
    { intros ? ? ? ? ? Hdb' Hrq'. rewrite Hdb in Hdb'. rewrite Hrq in Hrq'.
      split; congruence. }
    destruct (candidates stream (search_collection_of ty)) as [|it items] eqn:Hc;
      unfold resp_matches, resp_total_items, resp_searched_in;
      cbn [fst payload jsonify].
    + split; [|split].
      * intros ms H. injection H as <-. split; [constructor | simpl; lia].
      * discriminate.
      * intros ? ? ? ? ? Hdb' Hrq' _ _ Hne.
        destruct (Hsame _ _ _ _ _ Hdb' Hrq') as [-> ->]. congruence.
    + remember (firstn 20 (sort_reverse results)) as top eqn:Htop.
      assert (Hlen : List.length top = Nat.min 20 (List.length (it :: items))).
      { subst top. rewrite length_firstn, sort_reverse_length, HF.
        reflexivity. }
      split; [|split].
      * intros ms H. injection H as <-. split.
        -- subst top. apply firstn_sorted, sort_reverse_sorted.
        -- rewrite Hlen. lia.
      * intros n Hn. injection Hn as <-.
        exists stream, (search_collection_of ty).
        rewrite Hc. repeat split; auto; try discriminate.
        exists top. split; [reflexivity | exact Hlen].
      * intros ? ? ? ? ? Hdb' Hrq' _ _ Hne.
        destruct (Hsame _ _ _ _ _ Hdb' Hrq') as [-> ->].
        rewrite Hc. reflexivity.
Qed.

(** The request of scenario A gets no [total_items] although the searched
    collection has a candidate count, zero. *)
Lemma total_items_missing_over_empty_pool :
  db (env_with []) = Some (fun c => if String.eqb c "found_items" then [] else [])
  /\ resp_matches (fst (match_items (env_with []) lost_wallet)) = Some []
  /\ resp_total_items (fst (match_items (env_with []) lost_wallet))
     <> Some (List.length
                (candidates (fun c => if String.eqb c "found_items" then [] else [])
                            "found_items")).
Proof.
  split; [reflexivity|]. split; [reflexivity|]. cbn. discriminate.
Qed.

Lemma match_items_ranking_witness :
  resp_total_items
    (fst (match_items (env_with [doc_of "f1" "brown wallet" None]) lost_wallet))
  = Some 1%nat.
Proof.
  apply (proj2 (proj2 (match_items_ranking
                         (env_with [doc_of "f1" "brown wallet" None])
                         lost_wallet))
           (fun c => if String.eqb c "found_items"
                     then [doc_of "f1" "brown wallet" None] else [])
           "lost" "black wallet" None []).
  - reflexivity.
  - reflexivity.
  - left; reflexivity.
  - reflexivity.
  - discriminate.
Defined.

(** ** The calls made for one request *)

Section Traces.

Variable E : Env.

Lemma calculate_similarity_trace (query_text : string)
    (query_img : option image) (it : item) :
  snd (calculate_similarity E query_text query_img it)
  = (snd (text_part E query_text it) ++ snd (image_part E query_img it))%list.
Proof.
  destruct (text_part_total E query_text it) as (ts & ht & t1 & Ht & _).
  destruct (image_part_total E query_img it) as (im & hi & t2 & Hi & _).
  rewrite (calculate_similarity_eq _ _ _ _ _ _ _ _ _ _ Ht Hi), Ht, Hi.
  reflexivity.
Qed.

Lemma streamed_app (t1 t2 : list event) :
  streamed (t1 ++ t2) = (streamed t1 ++ streamed t2)%list.
Proof. apply flat_map_app. Qed.

Lemma count_events_app (p : event -> bool) (t1 t2 : list event) :
  count_events p (t1 ++ t2) = (count_events p t1 + count_events p t2)%nat.
Proof. unfold count_events. rewrite filter_app, length_app. reflexivity. Qed.

Lemma text_part_streams_nothing (query_text : string) (it : item) :
  streamed (snd (text_part E query_text it)) = [].
Proof.
  rewrite text_part_eq. cbv zeta.
  destruct (_ && _); [|reflexivity].
  destruct (embeddable query_text), (embeddable (description it)); reflexivity.
Qed.

Lemma image_part_streams_nothing (query_img : option image) (it : item) :
  streamed (snd (image_part E query_img it)) = [].
Proof.
  rewrite image_part_eq.
  destruct query_img as [qimg|]; [|reflexivity].
  destruct (image_url it) as [url|]; [|reflexivity].
  destruct (str_truthy url); [|reflexivity].
  destruct (requests_get_image E url) as [timg|]; [|reflexivity].
  destruct (image_model_encode E qimg), (image_model_encode E timg);
    reflexivity.
Qed.

Lemma scoring_streams_nothing (query_text : string)
    (query_img : option image) (items : list item) :
  streamed (flat_map (fun it => snd (calculate_similarity E query_text
                                       query_img it)) items) = [].
Proof.
  induction items as [|it items IH]; simpl; [reflexivity|].
  rewrite streamed_app, IH, calculate_similarity_trace, streamed_app,
    text_part_streams_nothing, image_part_streams_nothing.
  reflexivity.
Qed.

End Traces.

(** ** Which collection is searched *)

Lemma some_eq {A} (a b : A) : Some a = Some b -> a = b.
Proof. congruence. Qed.

Lemma match_items_search (E : Env) (req : request)
    (stream : string -> list document) (ty tx : string) :
  db E = Some stream ->
  submitted "type" req = JStr ty ->
  submitted "text" req = JStr tx ->
  lower ty = "lost" \/ lower ty = "found" ->
  str_truthy (strip tx) = true ->
  let r := fst (match_items E req) in
  let coll := search_collection_of (lower ty) in
  streamed (snd (match_items E req)) = [coll]
  /\ status r = 200%nat
  /\ (resp_searched_in r = Some coll
      \/ resp_message r = Some (empty_message coll))
  /\ (forall ms m, resp_matches r = Some ms -> In m ms ->
        exists it, In it (candidates stream coll) /\ item_id m = id it).
Proof.
  intros Hdb Hty Htx Hlow Hne r coll.
  destruct (read_query_strings E req ty tx Hty Htx) as (img & t0 & Hrq & Ht0).
  destruct (match_items_valid E req stream _ _ img t0 Hdb Hrq Hlow Hne)
    as (results & HF & Hm). cbv zeta in Hm. fold coll in Hm.
  subst r. rewrite Hm. cbn [fst snd].
  split; [|split; [|split]].
  - rewrite streamed_app. cbn [streamed flat_map].
    fold (streamed (flat_map (fun it => snd (calculate_similarity E (strip tx)
                                              img it))
                             (candidates stream coll))).
    rewrite scoring_streams_nothing.
    destruct Ht0 as [->|(url & ->)]; reflexivity.
  - destruct (candidates stream coll); reflexivity.
  - destruct (candidates stream coll); [right | left]; reflexivity.
  - intros ms m Hms Hin.
    destruct (candidates stream coll) as [|it items] eqn:Hc.
    + injection Hms as <-. destruct Hin.
    + apply some_eq in Hms. rewrite <- Hms in Hin.
      apply in_firstn in Hin.
      apply (Permutation_in _ (sort_reverse_perm results)) in Hin.
      destruct (Forall2_scored_in_r _ _ _ _ _ _ HF Hin)
        as (it' & Hit' & sim & t & _ & ->).
      exists it'. split; [|reflexivity].
      fold coll in Hit'. rewrite Hc in Hit'. exact Hit'.
Qed.

(** C3.  A valid request of type [lost] streams the [found_items]
    collection, and no other, and its matches are documents of that
    collection; a valid request of type [found] does so with [lost_items]. *)
Theorem query_type_selects_opposite_collection (E : Env) (req : request)
    (stream : string -> list document) (ty tx : string) :
  db E = Some stream ->
  submitted "type" req = JStr ty ->
  submitted "text" req = JStr tx ->
  str_truthy (strip tx) = true ->
  let r := fst (match_items E req) in
  (lower ty = "lost" ->
   streamed (snd (match_items E req)) = ["found_items"]
   /\ (resp_searched_in r = Some "found_items"
       \/ resp_message r = Some (empty_message "found_items"))
   /\ (forall ms m, resp_matches r = Some ms -> In m ms ->
         exists it, In it (candidates stream "found_items")
                    /\ item_id m = id it))
  /\ (lower ty = "found" ->
      streamed (snd (match_items E req)) = ["lost_items"]
      /\ (resp_searched_in r = Some "lost_items"
          \/ resp_message r = Some (empty_message "lost_items"))
      /\ (forall ms m, resp_matches r = Some ms -> In m ms ->
            exists it, In it (candidates stream "lost_items")
                       /\ item_id m = id it)).
Proof.
  intros Hdb Hty Htx Hne r. split; intros Hlow.
  - destruct (match_items_search E req stream ty tx Hdb Hty Htx
                (or_introl Hlow) Hne) as (H1 & _ & H2 & H3).
    rewrite Hlow in H1, H2, H3. auto.
  - destruct (match_items_search E req stream ty tx Hdb Hty Htx
                (or_intror Hlow) Hne) as (H1 & _ & H2 & H3).
    rewrite Hlow in H1, H2, H3. auto.
Qed.

Lemma query_type_selects_opposite_collection_witness :
  streamed (snd (match_items (env_with [doc_of "f1" "brown wallet" None])
                             lost_wallet)) = ["found_items"].
Proof.
  apply (proj1 (query_type_selects_opposite_collection
                  (env_with [doc_of "f1" "brown wallet" None]) lost_wallet
                  (fun c => if String.eqb c "found_items"
                            then [doc_of "f1" "brown wallet" None] else [])
                  "lost" "black wallet"
                  eq_refl eq_refl eq_refl eq_refl) eq_refl).
Defined.

(** ** An empty collection *)

(** The response of scenario A has no [total_items] key. *)
Lemma empty_pool_response_lacks_total_items :
  status (fst (match_items (env_with []) lost_wallet)) = 200%nat
  /\ resp_total_items (fst (match_items (env_with []) lost_wallet)) = None
  /\ resp_total_items (fst (match_items (env_with []) lost_wallet))
     <> Some 0%nat.
Proof. repeat split. discriminate. Qed.

(** C8, as the code has it.  A valid request over an empty collection is
    answered with status 200 and no [error]: [matches] is empty and
    [message] names the collection; there is no [total_items]. *)
Theorem empty_collection_is_not_an_error (E : Env) (req : request)
    (stream : string -> list document) (ty tx : string) :
  db E = Some stream ->
  submitted "type" req = JStr ty ->
  submitted "text" req = JStr tx ->
  lower ty = "lost" \/ lower ty = "found" ->
  str_truthy (strip tx) = true ->
  stream (search_collection_of (lower ty)) = [] ->
  let r := fst (match_items E req) in
  status r = 200%nat
  /\ resp_error r = None
  /\ resp_matches r = Some []
  /\ resp_message r = Some (empty_message (search_collection_of (lower ty)))
  /\ resp_total_items r = None.
Proof.
  intros Hdb Hty Htx Hlow Hne Hempty r.
  destruct (read_query_strings E req ty tx Hty Htx) as (img & t0 & Hrq & _).
  destruct (match_items_valid E req stream _ _ img t0 Hdb Hrq Hlow Hne)
    as (results & _ & Hm). cbv zeta in Hm.
  unfold candidates in Hm. rewrite Hempty in Hm. cbn [map] in Hm.
  subst r. rewrite Hm. repeat split.
Qed.

Lemma empty_collection_is_not_an_error_witness :
  let r := fst (match_items (env_with []) lost_wallet) in
  status r = 200%nat
  /\ resp_error r = None
  /\ resp_matches r = Some []
  /\ resp_message r = Some (empty_message "found_items")
  /\ resp_total_items r = None.
Proof.
  exact (empty_collection_is_not_an_error (env_with []) lost_wallet
           (fun c => if String.eqb c "found_items" then [] else [])
           "lost" "black wallet" eq_refl eq_refl eq_refl
           (or_introl eq_refl) eq_refl eq_refl).
Defined.

(** ** Validation *)

(** Scenario C sent while Firebase is not initialised gets a 500. *)
Lemma invalid_type_without_repository_is_500 :
  submitted "type" maybe_keys = JStr "maybe"
  /\ lower "maybe" <> "lost" /\ lower "maybe" <> "found"
  /\ status (fst (match_items env_no_db maybe_keys)) = 500%nat
  /\ status (fst (match_items env_no_db maybe_keys)) <> 400%nat.
Proof. repeat split; discriminate. Qed.

(** A [type] that is not a string has no [lower]: the [AttributeError] is
    caught by the outer handler, which answers 500. *)
Lemma null_json_type_is_500 :
  status (fst (match_items (env_with []) null_type_keys)) = 500%nat
  /\ resp_error (fst (match_items (env_with []) null_type_keys))
     = Some "'NoneType' object has no attribute 'lower'".
Proof. split; reflexivity. Qed.

(** C9, as the code has it.  With Firebase initialised and [type] and [text]
    submitted as strings (or left out): a type that is not [lost] or [found]
    once lowercased is answered with status 400 and the message about the
    type, whatever the text is; a valid type with a text that is empty once
    stripped is answered with status 400 and the message about the text;
    in both cases nothing is searched. *)
Theorem invalid_request_is_client_error (E : Env) (req : request)
    (stream : string -> list document) (ty tx : string) :
  db E = Some stream ->
  submitted "type" req = JStr ty ->
  submitted "text" req = JStr tx ->
  let r := fst (match_items E req) in
  (lower ty <> "lost" /\ lower ty <> "found" ->
   status r = 400%nat
   /\ resp_error r = Some type_error_message
   /\ streamed (snd (match_items E req)) = [])
  /\ (lower ty = "lost" \/ lower ty = "found" ->
      strip tx = EmptyString ->
      status r = 400%nat
      /\ resp_error r = Some text_error_message
      /\ streamed (snd (match_items E req)) = []).
Proof.
  intros Hdb Hty Htx r.
  destruct (read_query_strings E req ty tx Hty Htx) as (img & t0 & Hrq & Ht0).
  assert (Hs0 : streamed t0 = [])
    by (destruct Ht0 as [->|(url & ->)]; reflexivity).
  subst r. unfold match_items, match_items_try.
  rewrite Hdb, Hrq, bind_ok. cbn beta iota.
  split.
  - intros [H1 H2].
    assert (Hv : negb (str_truthy (lower ty))
                 || negb (String.eqb (lower ty) "lost"
                          || String.eqb (lower ty) "found") = true).
    { apply orb_true_iff. right. apply negb_true_iff, orb_false_iff.
      split; apply String.eqb_neq; assumption. }
    rewrite Hv. cbn. rewrite app_nil_r. auto.
  - intros Hlow Hempty.
    assert (Hv : negb (str_truthy (lower ty))
                 || negb (String.eqb (lower ty) "lost"
                          || String.eqb (lower ty) "found") = false)
      by (destruct Hlow as [-> | ->]; reflexivity).
    rewrite Hv, Hempty. cbn. rewrite app_nil_r. auto.
Qed.

Lemma invalid_request_is_client_error_witness :
  (status (fst (match_items (env_with []) maybe_keys)) = 400%nat
   /\ resp_error (fst (match_items (env_with []) maybe_keys))
      = Some type_error_message
   /\ streamed (snd (match_items (env_with []) maybe_keys)) = [])
  /\ (status (fst (match_items (env_with []) found_blank)) = 400%nat
      /\ resp_error (fst (match_items (env_with []) found_blank))
         = Some text_error_message
      /\ streamed (snd (match_items (env_with []) found_blank)) = []).
Proof.
  split.
  - apply (proj1 (invalid_request_is_client_error (env_with []) maybe_keys
                    (fun c => if String.eqb c "found_items" then [] else [])
                    "maybe" "keys" eq_refl eq_refl eq_refl)).
    split; discriminate.
  - apply (proj2 (invalid_request_is_client_error (env_with []) found_blank
                    (fun c => if String.eqb c "found_items" then [] else [])
                    "found" (" " ++ nbsp) eq_refl eq_refl eq_refl)).
    + right; reflexivity.
    + reflexivity.
Defined.

(** ** Case of the query type *)

Lemma dict_lookup_set_same {V} (d : dict V) (k : string) (v : V) :
  dict_lookup (dict_set d k v) k = Some v.
Proof.
  induction d as [|[k' v'] d IH]; simpl.
  - rewrite String.eqb_refl. reflexivity.
  - destruct (String.eqb k' k) eqn:Hk; simpl; rewrite Hk; auto.
Qed.

Lemma dict_lookup_set_other {V} (d : dict V) (k k' : string) (v : V) :
  k <> k' -> dict_lookup (dict_set d k v) k' = dict_lookup d k'.
Proof.
  intros Hne. induction d as [|[k0 v0] d IH]; simpl.
  - destruct (String.eqb k k') eqn:Hk; auto.
    apply String.eqb_eq in Hk. contradiction.
  - destruct (String.eqb k0 k) eqn:Hk; simpl.
    + apply String.eqb_eq in Hk. subst k0.
      destruct (String.eqb k k') eqn:Hk'; auto.
      apply String.eqb_eq in Hk'. contradiction.
    + rewrite IH. reflexivity.
Qed.

Lemma read_query_with_type (E : Env) (req : request) (s1 s2 : string) :
  lower s1 = lower s2 ->
  read_query E (with_type req s1) = read_query E (with_type req s2).
Proof.
  intros Hl. destruct req as [data|form files]; unfold with_type, read_query,
    dict_get.
  - rewrite !dict_lookup_set_same.
    rewrite !(dict_lookup_set_other data "type" "text") by discriminate.
    rewrite !(dict_lookup_set_other data "type" "imageUrl") by discriminate.
    cbn [str_method]. rewrite Hl. reflexivity.
  - rewrite !dict_lookup_set_same.
    rewrite !(dict_lookup_set_other form "type" "text") by discriminate.
    rewrite Hl. reflexivity.
Qed.

Lemma same_letter_lower (a b : ascii) :
  same_letter a b = true -> lower_ascii a = lower_ascii b.
Proof.
  unfold same_letter, lower_ascii, is_upper. cbv zeta. intros H.
  apply orb_true_iff in H as [H|H]; [apply orb_true_iff in H as [H|H]|].
  - apply Ascii.eqb_eq in H. subst b. reflexivity.
  - apply andb_true_iff in H as [Hu He]. rewrite Hu.
    apply Nat.eqb_eq in He. rewrite He, ascii_nat_embedding.
    apply andb_true_iff in Hu as [H1 H2].
    apply Nat.leb_le in H1, H2.
    destruct ((65 <=? nat_of_ascii b)%nat && (nat_of_ascii b <=? 90)%nat)
      eqn:Hb; [|reflexivity].
    apply andb_true_iff in Hb as [_ Hb]. apply Nat.leb_le in Hb. lia.
  - apply andb_true_iff in H as [Hu He]. rewrite Hu.
    apply Nat.eqb_eq in He. rewrite He, ascii_nat_embedding.
    apply andb_true_iff in Hu as [H1 H2].
    apply Nat.leb_le in H1, H2.
    destruct ((65 <=? nat_of_ascii a)%nat && (nat_of_ascii a <=? 90)%nat)
      eqn:Ha; [|reflexivity].
    apply andb_true_iff in Ha as [_ Ha]. apply Nat.leb_le in Ha. lia.
Qed.

Lemma same_up_to_case_lower (s t : string) :
  same_up_to_case s t = true -> lower s = lower t.
Proof.
  revert t. induction s as [|a s IH]; intros [|b t] H; simpl in *;
    try discriminate; [reflexivity|].
  apply andb_true_iff in H as [Hab Hst].
  rewrite (same_letter_lower a b Hab), (IH t Hst). reflexivity.
Qed.

Lemma submitted_with_type (req : request) (s : string) :
  submitted "type" (with_type req s) = JStr s
  /\ submitted "text" (with_type req s) = submitted "text" req.
Proof.
  destruct req as [data|form files]; unfold submitted, with_type, dict_get.
  - rewrite dict_lookup_set_same.
    rewrite (dict_lookup_set_other data "type" "text") by discriminate.
    auto.
  - rewrite dict_lookup_set_same.
    rewrite (dict_lookup_set_other form "type" "text") by discriminate.
    auto.
Qed.

(** C10.  The type is lowercased before it is validated and before the
    collection is chosen.  Two requests that differ only in their [type]
    fields, equal once lowercased, get the same response through the same
    calls; types that differ only in the case of their letters are equal
    once lowercased; and a type that is [lost] or [found] up to case is
    accepted: with Firebase initialised and a text that is not blank the
    request is answered with status 200 after a search of [found_items],
    respectively of [lost_items]. *)
Theorem type_check_is_case_insensitive (E : Env) (req : request)
    (s1 s2 : string) :
  (lower s1 = lower s2 ->
   match_items E (with_type req s1) = match_items E (with_type req s2))
  /\ (same_up_to_case s1 s2 = true -> lower s1 = lower s2)
  /\ (forall stream tx,
        db E = Some stream ->
        submitted "text" req = JStr tx ->
        str_truthy (strip tx) = true ->
        (same_up_to_case s1 "lost" = true ->
         status (fst (match_items E (with_type req s1))) = 200%nat
         /\ streamed (snd (match_items E (with_type req s1)))
            = ["found_items"])
        /\ (same_up_to_case s1 "found" = true ->
            status (fst (match_items E (with_type req s1))) = 200%nat
            /\ streamed (snd (match_items E (with_type req s1)))
               = ["lost_items"])).
Proof.
  split; [|split].
  - intros Hl. unfold match_items, match_items_try.
    rewrite (read_query_with_type E req s1 s2 Hl). reflexivity.
  - apply same_up_to_case_lower.
  - intros stream tx Hdb Htx Hne.
    destruct (submitted_with_type req s1) as [Hty Htx'].
    rewrite Htx in Htx'.
    split; intros Hs; apply same_up_to_case_lower in Hs;
      change (lower "lost") with "lost" in Hs;
      change (lower "found") with "found" in Hs.
    + destruct (match_items_search E (with_type req s1) stream s1 tx
                  Hdb Hty Htx' (or_introl Hs) Hne) as (H1 & H2 & _).
      rewrite Hs in H1. auto.
    + destruct (match_items_search E (with_type req s1) stream s1 tx
                  Hdb Hty Htx' (or_intror Hs) Hne) as (H1 & H2 & _).
      rewrite Hs in H1. auto.
Qed.

Lemma type_check_is_case_insensitive_witness :
  (match_items (env_with []) (with_type lost_wallet "LOST")
   = match_items (env_with []) (with_type lost_wallet "lost")
   /\ status (fst (match_items (env_with []) (with_type lost_wallet "LOST")))
      = 200%nat
   /\ streamed (snd (match_items (env_with []) (with_type lost_wallet "LOST")))
      = ["found_items"])
  /\ (match_items (env_with []) (with_type lost_wallet "Found")
      = match_items (env_with []) (with_type lost_wallet "found")
      /\ status (fst (match_items (env_with [])
                                  (with_type lost_wallet "Found")))
         = 200%nat
      /\ streamed (snd (match_items (env_with [])
                                    (with_type lost_wallet "Found")))
         = ["lost_items"]).
Proof.
  pose (stream := fun c : string =>
                    if String.eqb c "found_items"
                    then @nil document else @nil document).
  destruct (type_check_is_case_insensitive (env_with []) lost_wallet
              "LOST" "lost") as (H1 & _ & H3).
  destruct (type_check_is_case_insensitive (env_with []) lost_wallet
              "Found" "found") as (H4 & _ & H6).
  split.
  - split; [exact (H1 eq_refl)|].
    exact (proj1 (H3 stream "black wallet" eq_refl eq_refl eq_refl) eq_refl).
  - split; [exact (H4 eq_refl)|].
    exact (proj2 (H6 stream "black wallet" eq_refl eq_refl eq_refl) eq_refl).
Defined.

(** ** The range of the scores *)

Lemma calculate_similarity_bounds (E : Env) (query_text : string)
    (query_img : option image) (it : item) (sim : similarity_t)
    (t : list event) :
  calculate_similarity E query_text query_img it = (inr sim, t) ->
  (-100 <= overall_score sim <= 100)%R
  /\ (forall s, text_similarity sim = Some s -> (-100 <= s <= 100)%R)
  /\ (forall s, image_similarity sim = Some s -> (-100 <= s <= 100)%R).
Proof.
  destruct (text_part_total E query_text it)
    as (ts & ht & t1 & Ht & Hts & _).
  destruct (image_part_total E query_img it)
    as (im & hi & t2 & Hi & Him & _).
  rewrite (calculate_similarity_eq _ _ _ _ _ _ _ _ _ _ Ht Hi).
  intros H. injection H as <- _.
  cbn [overall_score text_similarity image_similarity].
  assert (Hr : forall x, (-1 <= x <= 1)%R ->
                         (-100 <= py_round2 (x * 100) <= 100)%R).
  { intros x Hx. apply (py_round2_between (-100) 100). lra. }
  split; [|split].
  - apply Hr. unfold combined_score, TEXT_WEIGHT, IMAGE_WEIGHT.
    destruct ht, hi; cbn [andb]; lra.
  - intros s Hs. destruct ht; [|discriminate].
    injection Hs as <-. apply Hr, Hts.
  - intros s Hs. destruct hi; [|discriminate].
    injection Hs as <-. apply Hr, Him.
Qed.

Lemma norm_singleton_minus_one : np_linalg_norm [(-1)%R] = 1%R.
Proof.
  unfold np_linalg_norm; simpl.
  replace (-1 * -1 + 0)%R with 1%R by ring. apply sqrt_1.
Qed.

Lemma cosine_value_opposed : cosine_value [1%R] [(-1)%R] = (-1)%R.
Proof.
  unfold cosine_value.
  rewrite norm_singleton_one, norm_singleton_minus_one. simpl np_dot.
  destruct (Rlt_dec 0 (1 * 1)) as [_|Hn]; [field | exfalso; apply Hn; lra].
Qed.

(** What [match_items] answers in the scenario of opposed embeddings. *)
Lemma env_opposed_matches :
  exists m,
    resp_matches (fst (match_items env_opposed lost_wallet)) = Some [m]
    /\ overall_score (similarity m) = (-100)%R
    /\ text_similarity (similarity m) = Some (-100)%R.
Proof.
  pose (stream := fun c => if String.eqb c "found_items"
                           then [doc_of "f1" "keys" None] else []).
  destruct (match_items_valid env_opposed lost_wallet stream
              "lost" "black wallet" None [] eq_refl eq_refl
              (or_introl eq_refl) eq_refl) as (results & HF & Hm).
  cbv zeta in Hm.
  change (candidates stream (search_collection_of "lost"))
    with [item_of_document (doc_of "f1" "keys" None)] in HF, Hm.
  inversion HF as [|it r l l' (sim & t & Hsim & Hr) Hnil]; subst.
  inversion Hnil; subst.
  assert (Ht : text_part env_opposed "black wallet"
                 (item_of_document (doc_of "f1" "keys" None))
               = (inr (cosine_value [1%R] [(-1)%R], true),
                  [TextEncode Query "black wallet";
                   TextEncode Candidate "keys"]))
    by (rewrite text_part_eq; reflexivity).
  assert (Hi : image_part env_opposed None
                 (item_of_document (doc_of "f1" "keys" None))
               = (inr (0%R, false), []))
    by (rewrite image_part_eq; reflexivity).
  rewrite (calculate_similarity_eq _ _ _ _ _ _ _ _ _ _ Ht Hi) in Hsim.
  injection Hsim as <- _.
  eexists. split; [rewrite Hm; reflexivity|].
  cbn [similarity result_entry overall_score text_similarity].
  unfold combined_score. cbn [andb]. rewrite cosine_value_opposed.
  replace (-1 * 100)%R with (IZR (-100)) by ring.
  rewrite py_round2_IZR. split; reflexivity.
Qed.

(** A returned score below zero. *)
Lemma opposed_embeddings_score_below_zero :
  exists m,
    resp_matches (fst (match_items env_opposed lost_wallet)) = Some [m]
    /\ overall_score (similarity m) = (-100)%R
    /\ text_similarity (similarity m) = Some (-100)%R
    /\ ~ (0 <= overall_score (similarity m) <= 100)%R.
Proof.
  destruct env_opposed_matches as (m & Hm & Ho & Ht).
  exists m. repeat split; auto. rewrite Ho. lra.
Qed.

(** C7, as the code has it.  Every returned match has its [overall_score]
    between -100 and 100, and so are [text_similarity] and
    [image_similarity] when present: a cosine may be negative and nothing
    clamps it. *)
Theorem match_scores_within_hundred (E : Env) (req : request)
    (ms : list result) (m : result) :
  resp_matches (fst (match_items E req)) = Some ms ->
  In m ms ->
  (-100 <= overall_score (similarity m) <= 100)%R
  /\ (forall s, text_similarity (similarity m) = Some s ->
                (-100 <= s <= 100)%R)
  /\ (forall s, image_similarity (similarity m) = Some s ->
                (-100 <= s <= 100)%R).
Proof.
  intros Hms Hin.
  destruct (match_items_cases E req)
    as [(code & e & Herr)|(stream & ty & txt & img & t0 & Hdb & Hrq & Hty & Htx)].
  - rewrite Herr in Hms. discriminate.
  - destruct (match_items_valid E req stream ty txt img t0 Hdb Hrq Hty Htx)
      as (results & HF & Hm). cbv zeta in Hm. rewrite Hm in Hms.
    destruct (candidates stream (search_collection_of ty)) as [|it items].
    + apply some_eq in Hms. subst ms. destruct Hin.
    + apply some_eq in Hms. rewrite <- Hms in Hin.
      apply in_firstn in Hin.
      apply (Permutation_in _ (sort_reverse_perm results)) in Hin.
      destruct (Forall2_scored_in_r _ _ _ _ _ _ HF Hin)
        as (it' & _ & sim & t & Hsim & ->).
      exact (calculate_similarity_bounds _ _ _ _ _ _ Hsim).
Qed.

Lemma match_scores_within_hundred_witness :
  exists m,
    resp_matches (fst (match_items env_opposed lost_wallet)) = Some [m]
    /\ (-100 <= overall_score (similarity m) <= 100)%R.
Proof.
  destruct env_opposed_matches as (m & Hm & _).
  exists m. split; [exact Hm|].
  exact (proj1 (match_scores_within_hundred env_opposed lost_wallet [m] m
                  Hm (or_introl eq_refl))).
Defined.

(** ** A candidate whose image cannot be loaded *)





(** ** How often the query is embedded *)

Section Strip.

Lemma chars_good (s : string) : good (chars s).
Proof.
  induction s as [|c s [IH1 IH2]]; [split; constructor|].
  simpl. destruct (chars s) as [|ch rest] eqn:Hc.
  - split; [|constructor]. constructor; [|constructor].
    exists c, EmptyString. auto.
  - destruct (starts_with_continuation ch) eqn:Hs.
    + inversion IH1 as [|? ? (c' & r & -> & Hr) Hrest]; subst.
      split; [|exact IH2].
      constructor; [|exact Hrest].
      exists c, (String c' r). split; [reflexivity|].
      simpl in *. rewrite Hs. exact Hr.
    + split.
      * constructor; [exists c, EmptyString; auto | exact IH1].
      * simpl. constructor; [exact Hs | exact IH2].
Qed.

Lemma join_chars (s : string) : join (chars s) = s.
Proof.
  induction s as [|c s IH]; [reflexivity|].
  simpl. destruct (chars s) as [|ch rest].
  - simpl in IH. subst s. reflexivity.
  - destruct (starts_with_continuation ch); simpl in *; rewrite IH;
      reflexivity.
Qed.

Lemma chars_of_char (c : ascii) (r : string) :
  all_continuation r = true -> chars (String c r) = [String c r].
Proof.
  revert c. induction r as [|c' r IH]; intros c Hr; [reflexivity|].
  simpl in Hr. apply andb_true_iff in Hr as [Hc' Hr].
  change (chars (String c (String c' r)))
    with (match chars (String c' r) with
          | ch :: rest =>
              if starts_with_continuation ch then String c ch :: rest
              else String c EmptyString :: ch :: rest
          | [] => [String c EmptyString]
          end).
  rewrite (IH c' Hr). simpl. rewrite Hc'. reflexivity.
Qed.

Lemma chars_cons (c : ascii) (s : string) :
  starts_with_continuation s = false ->
  chars (String c s) = String c EmptyString :: chars s.
Proof.
  intros Hs. destruct s as [|c' s]; [reflexivity|].
  change (chars (String c (String c' s)))
    with (match chars (String c' s) with
          | ch :: rest =>
              if starts_with_continuation ch then String c ch :: rest
              else String c EmptyString :: ch :: rest
          | [] => [String c EmptyString]
          end).
  assert (H : exists x rest, chars (String c' s) = String c' x :: rest).
  { simpl. destruct (chars s) as [|ch rest]; [eauto|].
    destruct (starts_with_continuation ch); eauto. }
  destruct H as (x & rest & ->). simpl in *. rewrite Hs. reflexivity.
Qed.

Lemma chars_app_char (ch s : string) :
  is_char ch -> starts_with_continuation s = false ->
  chars (ch ++ s) = ch :: chars s.
Proof.
  intros (c & r & -> & Hr) Hs. revert c.
  induction r as [|c' r IH]; intros c.
  - simpl append. apply chars_cons, Hs.
  - simpl in Hr. apply andb_true_iff in Hr as [Hc' Hr].
    change (chars (String c (String c' r) ++ s))
      with (match chars (String c' r ++ s) with
            | ch :: rest =>
                if starts_with_continuation ch then String c ch :: rest
                else String c EmptyString :: ch :: rest
            | [] => [String c EmptyString]
            end).
    rewrite (IH Hr c'). simpl. rewrite Hc'. reflexivity.
Qed.

Lemma join_starts (l : list string) :
  Forall is_char l ->
  Forall (fun ch => starts_with_continuation ch = false) l ->
  starts_with_continuation (join l) = false.
Proof.
  intros H1 H2. destruct l as [|ch l]; [reflexivity|].
  inversion H1 as [|? ? (c & r & -> & _) _]; subst.
  inversion H2; subst. assumption.
Qed.

Lemma chars_join (l : list string) : good l -> chars (join l) = l.
Proof.
  intros [H1 H2]. induction l as [|ch l IH]; [reflexivity|].
  inversion H1 as [|? ? Hch Hl]; subst. simpl in H2.
  simpl join. rewrite chars_app_char; auto.
  - f_equal. apply IH; auto.
    destruct l; [constructor|]. inversion H2; assumption.
  - apply join_starts; assumption.
Qed.

Lemma good_app (a b : list string) :
  good (a ++ b)%list -> good a /\ good b.
Proof.
  intros [H1 H2]. apply Forall_app in H1 as [Ha Hb].
  split; split; auto.
  - destruct a as [|x a]; [constructor|]. simpl in *.
    apply Forall_app in H2 as [H2 _]. exact H2.
  - destruct a as [|x a]; simpl in *; [exact H2|].
    apply Forall_app in H2 as [_ H2].
    destruct b; [constructor|]. inversion H2; assumption.
Qed.

Lemma drop_spaces_suffix (l : list string) :
  exists sp, l = (sp ++ drop_spaces l)%list /\ Forall (fun ch => is_space ch = true) sp.
Proof.
  induction l as [|ch l (sp & IH & Hsp)]; [exists []; auto|].
  simpl. destruct (is_space ch) eqn:Hc.
  - exists (ch :: sp). split; [simpl; f_equal; exact IH | constructor; auto].
  - exists []. auto.
Qed.

Lemma drop_spaces_head (l : list string) :
  match drop_spaces l with
  | [] => True
  | ch :: _ => is_space ch = false
  end.
Proof.
  induction l as [|ch l IH]; simpl; auto.
  destruct (is_space ch) eqn:Hc; auto.
Qed.

Lemma drop_spaces_fixed (l : list string) :
  match l with [] => True | ch :: _ => is_space ch = false end ->
  drop_spaces l = l.
Proof. destruct l as [|ch l]; simpl; auto. intros ->. reflexivity. Qed.

Lemma trim_good (l : list string) : good l -> good (trim l).
Proof.
  intros Hl. unfold trim.
  destruct (drop_spaces_suffix l) as (sp & Hsp & _).
  rewrite Hsp in Hl. apply good_app in Hl as [_ Hu].
  destruct (drop_spaces_suffix (rev (drop_spaces l))) as (sp' & Hsp' & _).
  apply (f_equal (@rev string)) in Hsp'. rewrite rev_involutive, rev_app_distr in Hsp'.
  rewrite Hsp' in Hu. apply good_app in Hu as [Hu _]. exact Hu.
Qed.

Lemma trim_idempotent (l : list string) : trim (trim l) = trim l.
Proof.
  unfold trim.
  set (u := drop_spaces l).
  set (v := drop_spaces (rev u)).
  assert (Hv : drop_spaces v = v)
    by (apply drop_spaces_fixed, drop_spaces_head).
  assert (Hu : drop_spaces (rev v) = rev v).
  { apply drop_spaces_fixed.
    destruct (drop_spaces_suffix (rev u)) as (sp & Hsp & _). fold v in Hsp.
    apply (f_equal (@rev string)) in Hsp.
    rewrite rev_involutive, rev_app_distr in Hsp.
    pose proof (drop_spaces_head l) as Hh. fold u in Hh.
    destruct (rev v) as [|x t]; [exact I|].
    rewrite Hsp in Hh. exact Hh. }
  rewrite Hu, rev_involutive, Hv. reflexivity.
Qed.

Lemma strip_idempotent (s : string) : strip (strip s) = strip s.
Proof.
  unfold strip. fold (trim (chars s)).
  fold (trim (chars (join (trim (chars s))))).
  rewrite chars_join by apply trim_good, chars_good.
  rewrite trim_idempotent. reflexivity.
Qed.

Lemma stripped_embeddable (s : string) :
  str_truthy (strip s) = true -> embeddable (strip s) = true.
Proof.
  intros H. unfold embeddable. rewrite strip_idempotent, H. reflexivity.
Qed.

End Strip.

Section Counting.

Variable E : Env.
Variable query_text : string.
Variable query_img : option image.
Hypothesis query_text_embeddable : embeddable query_text = true.

Lemma embeddable_truthy : str_truthy query_text = true.
Proof.
  unfold embeddable in query_text_embeddable.
  apply andb_true_iff in query_text_embeddable. tauto.
Qed.

Lemma query_text_encodes_of_candidate (it : item) :
  count_events is_query_text_encode
    (snd (calculate_similarity E query_text query_img it))
  = if has_description it then 1%nat else 0%nat.
Proof.
  rewrite calculate_similarity_trace, count_events_app.
  replace (count_events is_query_text_encode
             (snd (image_part E query_img it))) with 0%nat.
  - rewrite text_part_eq. cbv zeta.
    rewrite embeddable_truthy, query_text_embeddable. unfold has_description.
    destruct (str_truthy (description it)); cbn [andb]; [|reflexivity].
    destruct (embeddable (description it)); reflexivity.
  - rewrite image_part_eq.
    destruct query_img as [qimg|]; [|reflexivity].
    destruct (image_url it) as [url|]; [|reflexivity].
    destruct (str_truthy url); [|reflexivity].
    destruct (requests_get_image E url) as [timg|]; [|reflexivity].
    destruct (image_model_encode E qimg), (image_model_encode E timg);
      reflexivity.
Qed.

Lemma query_image_encodes_of_candidate (it : item) :
  count_events is_query_image_encode
    (snd (calculate_similarity E query_text query_img it))
  = match query_img with
    | Some _ => if has_image_url it then 1%nat else 0%nat
    | None => 0%nat
    end.
Proof.
  clear query_text_embeddable.
  rewrite calculate_similarity_trace, count_events_app.
  replace (count_events is_query_image_encode
             (snd (text_part E query_text it))) with 0%nat.
  - rewrite image_part_eq. unfold has_image_url.
    destruct query_img as [qimg|]; [|reflexivity].
    destruct (image_url it) as [url|]; [|reflexivity].
    destruct (str_truthy url); [|reflexivity].
    destruct (requests_get_image E url) as [timg|]; [|reflexivity].
    destruct (image_model_encode E qimg), (image_model_encode E timg);
      reflexivity.
  - rewrite text_part_eq. cbv zeta.
    destruct (_ && _); [|reflexivity].
    destruct (embeddable query_text), (embeddable (description it));
      reflexivity.
Qed.

Lemma count_over_candidates (p : event -> bool) (q : item -> bool)
    (items : list item) :
  (forall it,
     count_events p (snd (calculate_similarity E query_text query_img it))
     = if q it then 1%nat else 0%nat) ->
  count_events p
    (flat_map (fun it => snd (calculate_similarity E query_text query_img it))
              items)
  = List.length (filter q items).
Proof.
  intros Hone. induction items as [|it items IH]; simpl; [reflexivity|].
  rewrite count_events_app, IH, Hone.
  destruct (q it); reflexivity.
Qed.

End Counting.

(** With two described candidates the query text is embedded twice. *)
Lemma query_text_embedded_twice :
  count_events is_query_text_encode
    (snd (match_items (env_with [doc_of "f1" "brown wallet" None;
                                 doc_of "f2" "set of keys" None])
                      lost_wallet))
  = 2%nat
  /\ count_events is_query_text_encode
       (snd (match_items (env_with [doc_of "f1" "brown wallet" None;
                                    doc_of "f2" "set of keys" None])
                         lost_wallet))
     <> 1%nat.
Proof.
  pose (E := env_with [doc_of "f1" "brown wallet" None;
                       doc_of "f2" "set of keys" None]).
  pose (stream := fun c => if String.eqb c "found_items"
                           then [doc_of "f1" "brown wallet" None;
                                 doc_of "f2" "set of keys" None]
                           else []).
  destruct (match_items_valid E lost_wallet stream
              "lost" "black wallet" None [] eq_refl eq_refl
              (or_introl eq_refl) eq_refl) as (results & _ & Hm).
  cbv zeta in Hm. fold E. rewrite Hm. cbn [snd app].
  change (candidates stream (search_collection_of "lost"))
    with [item_of_document (doc_of "f1" "brown wallet" None);
          item_of_document (doc_of "f2" "set of keys" None)].
  cbn [flat_map].
  rewrite !calculate_similarity_trace, !text_part_eq, !image_part_eq.
  split; [reflexivity | discriminate].
Qed.

(** C6, as the code has it.  [calculate_similarity] embeds the query anew for
    every candidate: over a valid request the query text is embedded once
    for each candidate that has a description, and the query image, when
    there is one, once for each candidate that has an image URL. *)
Theorem query_embeddings_recomputed_per_candidate (E : Env) (req : request)
    (stream : string -> list document) (ty tx : string) :
  db E = Some stream ->
  submitted "type" req = JStr ty ->
  submitted "text" req = JStr tx ->
  lower ty = "lost" \/ lower ty = "found" ->
  str_truthy (strip tx) = true ->
  let items := candidates stream (search_collection_of (lower ty)) in
  let trace := snd (match_items E req) in
  count_events is_query_text_encode trace
  = List.length (filter has_description items)
  /\ exists img t0,
       read_query E req = (inr (lower ty, strip tx, img), t0)
       /\ count_events is_query_image_encode trace
          = match img with
            | Some _ => List.length (filter has_image_url items)
            | None => 0%nat
            end.
Proof.
  intros Hdb Hty Htx Hlow Hne items trace.
  destruct (read_query_strings E req ty tx Hty Htx) as (img & t0 & Hrq & Ht0).
  destruct (match_items_valid E req stream _ _ img t0 Hdb Hrq Hlow Hne)
    as (results & _ & Hm). cbv zeta in Hm. fold items in Hm.
  pose proof (stripped_embeddable tx Hne) as Hemb.
  assert (Hq0 : forall p, (p = is_query_text_encode \/ p = is_query_image_encode)
                          -> count_events p t0 = 0%nat).
  { intros p [-> | ->]; destruct Ht0 as [->|(url & ->)]; reflexivity. }
  subst trace. rewrite Hm. cbn [snd].
  split.
  - rewrite count_events_app, (Hq0 _ (or_introl eq_refl)).
    change (FirestoreStream ?c :: ?l) with ([FirestoreStream c] ++ l)%list.
    rewrite count_events_app.
    rewrite (count_over_candidates E (strip tx) img _ has_description).
    + reflexivity.
    + intros it. apply query_text_encodes_of_candidate. exact Hemb.
  - exists img, t0. split; [exact Hrq|].
    rewrite count_events_app, (Hq0 _ (or_intror eq_refl)).
    change (FirestoreStream ?c :: ?l) with ([FirestoreStream c] ++ l)%list.
    rewrite count_events_app.
    destruct img as [qimg|].
    + rewrite (count_over_candidates E (strip tx) (Some qimg) _ has_image_url).
      * reflexivity.
      * intros it. apply (query_image_encodes_of_candidate E (strip tx)
                            (Some qimg)).
    + rewrite (count_over_candidates E (strip tx) None _ (fun _ => false)).
      * assert (Hf : forall l : list item,
                   List.length (filter (fun _ => false) l) = 0%nat)
          by (induction l; auto).
        rewrite Hf. reflexivity.
      * intros it. apply (query_image_encodes_of_candidate E (strip tx) None).
Qed.

Lemma query_embeddings_recomputed_per_candidate_witness :
  count_events is_query_text_encode
    (snd (match_items (env_with [doc_of "f1" "brown wallet" None;
                                 doc_of "f2" "set of keys" None])
                      lost_wallet))
  = 2%nat.
Proof.
  exact (proj1 (query_embeddings_recomputed_per_candidate
                  (env_with [doc_of "f1" "brown wallet" None;
                             doc_of "f2" "set of keys" None])
                  lost_wallet
                  (fun c => if String.eqb c "found_items"
                            then [doc_of "f1" "brown wallet" None;
                                  doc_of "f2" "set of keys" None]
                            else [])
                  "lost" "black wallet"
                  eq_refl eq_refl eq_refl (or_introl eq_refl) eq_refl)).
Defined.

(** * Further properties of the code *)

(** ** The scorer *)

(** X1.  [cosine_similarity] is symmetric in its two arguments. *)
Theorem cosine_similarity_symmetric (a b : vec) :
  cosine_similarity a b = cosine_similarity b a.
Proof.
  unfold cosine_similarity. cbv zeta.
  rewrite (np_dot_comm a b),
    (Rmult_comm (np_linalg_norm a) (np_linalg_norm b)).
  reflexivity.
Qed.

(** X3.  [cosine_similarity] always returns a number, between -1 and 1. *)
Theorem cosine_similarity_range (a b : vec) :
  exists c, cosine_similarity a b = Some c /\ (-1 <= c <= 1)%R.
Proof.
  exists (cosine_value a b). split.
  - apply cosine_similarity_value.
  - apply cosine_value_bounds.
Qed.

(** ** Rounding of the scores *)




(** ** A request over a single candidate *)

Lemma match_items_single (E : Env) (req : request)
    (stream : string -> list document) (ty txt : string)
    (img : option image) (t0 : list event) (d : document) :
  db E = Some stream ->
  read_query E req = (inr (ty, txt, img), t0) ->
  ty = "lost" \/ ty = "found" ->
  str_truthy txt = true ->
  stream (search_collection_of ty) = [d] ->
  exists sim t,
    calculate_similarity E txt img (item_of_document d) = (inr sim, t)
    /\ resp_matches (fst (match_items E req))
       = Some [result_entry (item_of_document d) sim].
Proof.
  intros Hdb Hrq Hty Htx Hd.
  destruct (match_items_valid E req stream ty txt img t0 Hdb Hrq Hty Htx)
    as (results & HF & Hm). cbv zeta in Hm.
  unfold candidates in HF, Hm. rewrite Hd in HF, Hm. cbn [map] in HF, Hm.
  inversion HF as [|it r l l' (sim & t & Hsim & Hr) Hnil]; subst.
  inversion Hnil; subst.
  exists sim, t. split; [exact Hsim|]. rewrite Hm. reflexivity.
Qed.

Lemma match_items_single_total (E : Env) (req : request)
    (stream : string -> list document) (ty txt : string)
    (img : option image) (t0 : list event) (d : document) :
  db E = Some stream ->
  read_query E req = (inr (ty, txt, img), t0) ->
  ty = "lost" \/ ty = "found" ->
  str_truthy txt = true ->
  stream (search_collection_of ty) = [d] ->
  resp_total_items (fst (match_items E req)) = Some 1%nat.
Proof.
  intros Hdb Hrq Hty Htx Hd.
  destruct (match_items_valid E req stream ty txt img t0 Hdb Hrq Hty Htx)
    as (results & _ & Hm). cbv zeta in Hm.
  unfold candidates in Hm. rewrite Hd in Hm. rewrite Hm. reflexivity.
Qed.

(** ** Which candidates get a text similarity *)

Lemma embeddable_strip (s : string) : embeddable s = str_truthy (strip s).
Proof.
  unfold embeddable. destruct s as [|c s]; [reflexivity|].
  cbn [str_truthy andb]. reflexivity.
Qed.

Lemma text_part_has_text (E : Env) (query_text : string) (it : item) :
  exists text_sim t,
    text_part E query_text it
    = (inr (text_sim, embeddable query_text && embeddable (description it)), t).
Proof.
  rewrite text_part_eq. cbv zeta.
  destruct (str_truthy query_text) eqn:Hq;
    [destruct (str_truthy (description it)) eqn:Hd|]; cbn [andb].
  - destruct (embeddable query_text), (embeddable (description it)); eauto.
  - unfold embeddable at 2. rewrite Hd. cbn [andb].
    rewrite andb_false_r. eauto.
  - unfold embeddable at 1. rewrite Hq. cbn [andb]. eauto.
Qed.

Lemma scored_has_text (E : Env) (query_text : string)
    (query_img : option image) (it : item) (m : result) :
  scored E query_text query_img it m ->
  has_text (similarity m) = embeddable query_text && embeddable (description it)
  /\ (text_similarity (similarity m) = None
      <-> has_text (similarity m) = false).
Proof.
  intros (sim & t & Hsim & ->).
  destruct (text_part_has_text E query_text it) as (ts & t1 & Ht).
  destruct (image_part_total E query_img it) as (im & hi & t2 & Hi & _).
  rewrite (calculate_similarity_eq _ _ _ _ _ _ _ _ _ _ Ht Hi) in Hsim.
  injection Hsim as <- _.
  cbn [similarity result_entry has_text text_similarity].
  split; [reflexivity|].
  destruct (embeddable query_text && embeddable (description it));
    split; intros H; congruence.
Qed.

(** X6.  In the answer to a valid request a match has a [text_similarity]
    exactly when the description of its candidate is not blank (empty or
    only white space). *)
Theorem text_similarity_present_iff_description (E : Env) (req : request)
    (stream : string -> list document) (ty tx : string)
    (ms : list result) (m : result) :
  db E = Some stream ->
  submitted "type" req = JStr ty ->
  submitted "text" req = JStr tx ->
  lower ty = "lost" \/ lower ty = "found" ->
  str_truthy (strip tx) = true ->
  resp_matches (fst (match_items E req)) = Some ms ->
  In m ms ->
  exists it,
    In it (candidates stream (search_collection_of (lower ty)))
    /\ item_id m = id it
    /\ has_text (similarity m) = str_truthy (strip (description it))
    /\ (text_similarity (similarity m) = None
        <-> strip (description it) = EmptyString).
Proof.
  intros Hdb Hty Htx Hlow Hne Hms Hin.
  destruct (read_query_strings E req ty tx Hty Htx) as (img & t0 & Hrq & _).
  destruct (match_items_valid E req stream _ _ img t0 Hdb Hrq Hlow Hne)
    as (results & HF & Hm). cbv zeta in Hm. rewrite Hm in Hms.
  destruct (candidates stream (search_collection_of (lower ty)))
    as [|it0 items] eqn:Hc.
  - apply some_eq in Hms. subst ms. destruct Hin.
  - apply some_eq in Hms. rewrite <- Hms in Hin.
    apply in_firstn in Hin.
    apply (Permutation_in _ (sort_reverse_perm results)) in Hin.
    destruct (Forall2_scored_in_r _ _ _ _ _ _ HF Hin) as (it & Hit & Hsc).
    exists it. split; [exact Hit|].
    destruct (scored_has_text _ _ _ _ _ Hsc) as [Hh Hn].
    rewrite (stripped_embeddable tx Hne), embeddable_strip in Hh.
    cbn [andb] in Hh.
    split; [destruct Hsc as (sim & t & _ & ->); reflexivity|].
    split; [exact Hh|].
    rewrite Hn, Hh. destruct (strip (description it)); cbn; split;
      intros H; congruence.
Qed.

Lemma text_similarity_present_iff_description_witness :
  exists m,
    resp_matches (fst (match_items (env_with [doc_of "f1" (" " ++ nbsp) None])
                                   lost_wallet)) = Some [m]
    /\ exists it,
         In it [item_of_document (doc_of "f1" (" " ++ nbsp) None)]
         /\ item_id m = id it
         /\ has_text (similarity m) = str_truthy (strip (description it))
         /\ (text_similarity (similarity m) = None
             <-> strip (description it) = EmptyString).
Proof.
  destruct (match_items_single
              (env_with [doc_of "f1" (" " ++ nbsp) None]) lost_wallet
              (fun c => if String.eqb c "found_items"
                        then [doc_of "f1" (" " ++ nbsp) None] else [])
              "lost" "black wallet" None [] (doc_of "f1" (" " ++ nbsp) None)
              eq_refl eq_refl (or_introl eq_refl) eq_refl eq_refl)
    as (sim & t & _ & Hms).
  eexists. split; [exact Hms|].
  exact (text_similarity_present_iff_description
           (env_with [doc_of "f1" (" " ++ nbsp) None]) lost_wallet
           (fun c => if String.eqb c "found_items"
                     then [doc_of "f1" (" " ++ nbsp) None] else [])
           "lost" "black wallet" _ _
           eq_refl eq_refl eq_refl (or_introl eq_refl) eq_refl Hms
           (or_introl eq_refl)).
Defined.

(** ** From documents to candidates *)

(** X7.  A candidate has a usable image URL exactly when [imageUrl] or
    [image_url] of its document is a non-empty string, and [imageUrl] is
    the one taken when it is. *)
Theorem image_url_of_document (d : document) :
  has_image_url (item_of_document d)
  = field_truthy (doc_imageUrl d) || field_truthy (doc_image_url d)
  /\ (field_truthy (doc_imageUrl d) = true ->
      image_url (item_of_document d) = doc_imageUrl d)
  /\ (field_truthy (doc_imageUrl d) = false ->
      image_url (item_of_document d) = doc_image_url d).
Proof.
  unfold has_image_url, item_of_document, py_or, field_truthy.
  cbn [image_url].
  destruct (doc_imageUrl d) as [s|]; [destruct (str_truthy s) eqn:Hs|];
    cbn [orb]; repeat split; try reflexivity; try discriminate;
    rewrite ?Hs; reflexivity.
Qed.

Lemma image_url_of_document_witness :
  image_url (item_of_document (doc_of "f1" "keys" (Some "http://img/f1.jpg")))
  = Some "http://img/f1.jpg".
Proof.
  exact (proj1 (proj2 (image_url_of_document
                         (doc_of "f1" "keys" (Some "http://img/f1.jpg"))))
           eq_refl).
Defined.

Lemma dict_lookup_set {V} (d : dict V) (k0 k : string) (v : V) :
  dict_lookup (dict_set d k0 v) k
  = if String.eqb k0 k then Some v else dict_lookup d k.
Proof.
  destruct (String.eqb k0 k) eqn:Hk.
  - apply String.eqb_eq in Hk. subst k. apply dict_lookup_set_same.
  - apply dict_lookup_set_other. intros ->.
    rewrite String.eqb_refl in Hk. discriminate.
Qed.

Lemma dict_lookup_app {V} (l1 l2 : dict V) (k : string) :
  dict_lookup (l1 ++ l2)%list k
  = match dict_lookup l1 k with
    | Some v => Some v
    | None => dict_lookup l2 k
    end.
Proof.
  induction l1 as [|[k' v'] l1 IH]; simpl; [reflexivity|].
  destruct (String.eqb k' k); auto.
Qed.

(** In [{**d, **ext}] a key has the last value [ext] gives it, and the
    value of [d] when [ext] has none. *)
Lemma dict_lookup_update {V} (d ext : dict V) (k : string) :
  dict_lookup (dict_update d ext) k
  = match dict_lookup (rev ext) k with
    | Some v => Some v
    | None => dict_lookup d k
    end.
Proof.
  unfold dict_update. revert d.
  induction ext as [|[k0 v0] ext IH]; intros d; simpl; [reflexivity|].
  rewrite IH, dict_lookup_app, dict_lookup_set. simpl.
  destruct (dict_lookup (rev ext) k); [reflexivity|].
  destruct (String.eqb k0 k); reflexivity.
Qed.

(** X8.  In the metadata of a candidate a key of the free-form [metadata]
    of the document has the value given there, also when it is one of
    [location], [date], [category], [contactInfo]; these four keep the
    value of the document's own field otherwise, and are always present. *)
Theorem metadata_of_document (d : document) (k : string) :
  dict_lookup (metadata (item_of_document d)) k
  = match dict_lookup (rev (or_default (doc_metadata d) [])) k with
    | Some v => Some v
    | None =>
        dict_lookup [("location", doc_location d); ("date", doc_date d);
                     ("category", doc_category d);
                     ("contactInfo", doc_contactInfo d)] k
    end.
Proof.
  unfold item_of_document. cbn [metadata]. apply dict_lookup_update.
Qed.

(** ** The sort *)

Lemma same_score_insert (k : R) (x : result) (l : list result) :
  filter (same_score k) (insert_desc x l) = filter (same_score k) (x :: l).
Proof.
  induction l as [|y l IH]; [reflexivity|].
  cbn [insert_desc].
  destruct (Rlt_dec (sort_key x) (sort_key y)) as [Hlt|Hge]; [|reflexivity].
  cbn [filter] in *. rewrite IH.
  destruct (same_score k y) eqn:Hy; destruct (same_score k x) eqn:Hx;
    try reflexivity.
  exfalso. unfold same_score in Hy, Hx.
  destruct (Req_dec_T (sort_key y) k); [|discriminate].
  destruct (Req_dec_T (sort_key x) k); [|discriminate].
  lra.
Qed.

(** X9.  The sort is stable: the entries of one [overall_score] keep the
    order they had. *)
Theorem sort_reverse_stable (k : R) (l : list result) :
  filter (same_score k) (sort_reverse l) = filter (same_score k) l.
Proof.
  induction l as [|x l IH]; [reflexivity|].
  cbn [sort_reverse fold_right].
  fold (sort_reverse l). rewrite same_score_insert.
  cbn [filter]. rewrite IH. reflexivity.
Qed.

(** X10.  A list that is already in non-increasing order of [overall_score]
    is left as it is. *)
Theorem sort_reverse_of_sorted (l : list result) :
  sorted_desc l -> sort_reverse l = l.
Proof.
  unfold sorted_desc. induction l as [|x l IH]; intros Hs; [reflexivity|].
  inversion Hs as [|? ? Hs' Hhd]; subst.
  cbn [sort_reverse fold_right]. fold (sort_reverse l). rewrite (IH Hs').
  destruct l as [|y l]; [reflexivity|].
  cbn [insert_desc]. inversion Hhd; subst.
  destruct (Rlt_dec (sort_key x) (sort_key y)) as [Hlt|Hge];
    [exfalso; lra | reflexivity].
Qed.

Lemma sort_reverse_of_sorted_witness :
  let r := result_entry (item_of_document (doc_of "f1" "keys" None))
             {| overall_score := 0; text_similarity := None;
                image_similarity := None; has_text := false;
                has_image := false |} in
  sort_reverse [r; r] = [r; r].
Proof.
  intros r. apply sort_reverse_of_sorted. unfold sorted_desc.
  apply Sorted_cons;
    [apply Sorted_cons; [apply Sorted_nil | apply HdRel_nil]
    | apply HdRel_cons; apply Rle_refl].
Defined.

(** ** The ranked list and its cut *)

Lemma Forall2_scored_ids (E : Env) (query_text : string)
    (query_img : option image) (items : list item) (results : list result) :
  Forall2 (scored E query_text query_img) items results ->
  map item_id results = map id items.
Proof.
  induction 1 as [|it r items results (sim & t & _ & ->) _ IH]; simpl;
    [reflexivity|].
  rewrite IH. reflexivity.
Qed.

Lemma in_skipn_in {A} (n : nat) (l : list A) (x : A) :
  In x (skipn n l) -> In x l.
Proof.
  revert l; induction n as [|n IH]; intros [|y l]; simpl; auto.
Qed.

Lemma sorted_desc_cut (l : list result) (n : nat) (m r : result) :
  sorted_desc l ->
  In m (firstn n l) -> In r (skipn n l) ->
  (sort_key r <= sort_key m)%R.
Proof.
  unfold sorted_desc. intros Hs.
  apply Sorted_StronglySorted in Hs;
    [|intros x y z Hxy Hyz; lra].
  revert n. induction Hs as [|x l Hs IH Hall]; intros n Hm Hr.
  - destruct n; destruct Hm.
  - destruct n as [|n]; [destruct Hm|].
    cbn [firstn skipn] in Hm, Hr. destruct Hm as [<-|Hm].
    + apply in_skipn_in in Hr.
      rewrite Forall_forall in Hall. apply Hall, Hr.
    + apply (IH n Hm Hr).
Qed.

(** What a response with matches comes from. *)
Lemma matches_origin (E : Env) (req : request) (ms : list result) :
  resp_matches (fst (match_items E req)) = Some ms ->
  exists stream ty txt img t0 results,
    db E = Some stream
    /\ read_query E req = (inr (ty, txt, img), t0)
    /\ Forall2 (scored E txt img)
         (candidates stream (search_collection_of ty)) results
    /\ ms = firstn 20 (sort_reverse results)
    /\ match_items E req
       = (match candidates stream (search_collection_of ty) with
          | [] => jsonify 200
                    (EmptyBody (empty_message (search_collection_of ty)))
          | _ :: _ =>
              jsonify 200
                (MatchBody ty (search_collection_of ty)
                   (List.length (candidates stream (search_collection_of ty)))
                   (firstn 20 (sort_reverse results)))
          end,
          (t0 ++ FirestoreStream (search_collection_of ty)
              :: flat_map (fun it => snd (calculate_similarity E txt img it))
                          (candidates stream (search_collection_of ty)))%list).
Proof.
  intros Hms.
  destruct (match_items_cases E req)
    as [(code & e & Herr)|(stream & ty & txt & img & t0 & Hdb & Hrq & Hty & Htx)].
  - rewrite Herr in Hms. discriminate.
  - destruct (match_items_valid E req stream ty txt img t0 Hdb Hrq Hty Htx)
      as (results & HF & Hm). cbv zeta in Hm.
    exists stream, ty, txt, img, t0, results.
    split; [exact Hdb|]. split; [exact Hrq|]. split; [exact HF|].
    split; [|exact Hm].
    rewrite Hm in Hms.
    destruct (candidates stream (search_collection_of ty)) eqn:Hc.
    + inversion HF; subst. apply some_eq in Hms. subst ms. reflexivity.
    + apply some_eq in Hms. subst ms. reflexivity.
Qed.

(** X11.  Whenever matches are returned they are the first 20 entries of
    the sorted list of the entries computed for the fetched candidates, one
    for each candidate in the order fetched, and no entry that is cut scores
    higher than a match that is returned. *)
Theorem matches_are_the_best (E : Env) (req : request) (ms : list result) :
  resp_matches (fst (match_items E req)) = Some ms ->
  exists stream ty txt img t0 results,
    db E = Some stream
    /\ read_query E req = (inr (ty, txt, img), t0)
    /\ Forall2 (scored E txt img)
         (candidates stream (search_collection_of ty)) results
    /\ ms = firstn 20 (sort_reverse results)
    /\ Permutation (sort_reverse results) results
    /\ forall m r, In m ms -> In r (skipn 20 (sort_reverse results)) ->
         (overall_score (similarity r) <= overall_score (similarity m))%R.
Proof.
  intros Hms.
  destruct (matches_origin E req ms Hms)
    as (stream & ty & txt & img & t0 & results & Hdb & Hrq & HF & Heq & _).
  exists stream, ty, txt, img, t0, results.
  repeat (split; [assumption|]).
  split; [apply sort_reverse_perm|].
  intros m r Hm Hr. subst ms.
  exact (sorted_desc_cut (sort_reverse results) 20 m r
           (sort_reverse_sorted results) Hm Hr).
Qed.

Lemma matches_are_the_best_witness :
  exists m,
    resp_matches (fst (match_items (env_with [doc_of "f1" "keys" None])
                                   lost_wallet)) = Some [m]
    /\ exists stream ty txt img t0 results,
         db (env_with [doc_of "f1" "keys" None]) = Some stream
         /\ read_query (env_with [doc_of "f1" "keys" None]) lost_wallet
            = (inr (ty, txt, img), t0)
         /\ Forall2 (scored (env_with [doc_of "f1" "keys" None]) txt img)
              (candidates stream (search_collection_of ty)) results
         /\ [m] = firstn 20 (sort_reverse results)
         /\ Permutation (sort_reverse results) results
         /\ forall m' r, In m' [m] ->
              In r (skipn 20 (sort_reverse results)) ->
              (overall_score (similarity r)
               <= overall_score (similarity m'))%R.
Proof.
  destruct (match_items_single
              (env_with [doc_of "f1" "keys" None]) lost_wallet
              (fun c => if String.eqb c "found_items"
                        then [doc_of "f1" "keys" None] else [])
              "lost" "black wallet" None [] (doc_of "f1" "keys" None)
              eq_refl eq_refl (or_introl eq_refl) eq_refl eq_refl)
    as (sim & t & _ & Hms).
  eexists. split; [exact Hms|].
  exact (matches_are_the_best _ _ _ Hms).
Defined.

(** X12.  Whenever a response gives a [total_items] of at most 20, its
    matches are exactly one for each candidate fetched from the searched
    collection: none is left out and none comes twice. *)
Theorem every_candidate_is_returned (E : Env) (req : request)
    (ms : list result) (n : nat) :
  resp_matches (fst (match_items E req)) = Some ms ->
  resp_total_items (fst (match_items E req)) = Some n ->
  (n <= 20)%nat ->
  exists stream coll,
    db E = Some stream
    /\ resp_searched_in (fst (match_items E req)) = Some coll
    /\ n = List.length (candidates stream coll)
    /\ Permutation (map item_id ms) (map id (candidates stream coll)).
Proof.
  intros Hms Hn Hle.
  destruct (matches_origin E req ms Hms)
    as (stream & ty & txt & img & t0 & results & Hdb & _ & HF & Heq & Hm).
  rewrite Hm in Hn. unfold resp_searched_in. rewrite Hm.
  exists stream, (search_collection_of ty).
  pose proof (Forall2_scored_length _ _ _ _ _ HF) as Hlen.
  pose proof (Forall2_scored_ids _ _ _ _ _ HF) as Hids.
  destruct (candidates stream (search_collection_of ty)) as [|it items];
    [discriminate|].
  cbn [fst payload jsonify resp_total_items] in Hn |- *.
  unfold resp_total_items in Hn. cbn [payload jsonify] in Hn.
  apply some_eq in Hn. subst n.
  split; [exact Hdb|]. split; [reflexivity|]. split; [reflexivity|].
  rewrite Heq, firstn_all2 by (rewrite sort_reverse_length, Hlen; exact Hle).
  rewrite (Permutation_map item_id (sort_reverse_perm results)), Hids.
  reflexivity.
Qed.

Lemma every_candidate_is_returned_witness :
  exists m,
    resp_matches (fst (match_items (env_with [doc_of "f1" "keys" None])
                                   lost_wallet)) = Some [m]
    /\ exists stream coll,
         db (env_with [doc_of "f1" "keys" None]) = Some stream
         /\ resp_searched_in
              (fst (match_items (env_with [doc_of "f1" "keys" None])
                                lost_wallet)) = Some coll
         /\ 1%nat = List.length (candidates stream coll)
         /\ Permutation (map item_id [m]) (map id (candidates stream coll)).
Proof.
  destruct (match_items_single
              (env_with [doc_of "f1" "keys" None]) lost_wallet
              (fun c => if String.eqb c "found_items"
                        then [doc_of "f1" "keys" None] else [])
              "lost" "black wallet" None [] (doc_of "f1" "keys" None)
              eq_refl eq_refl (or_introl eq_refl) eq_refl eq_refl)
    as (sim & t & _ & Hms).
  eexists. split; [exact Hms|].
  refine (every_candidate_is_returned _ _ _ 1 Hms _ _).
  - exact (match_items_single_total
             (env_with [doc_of "f1" "keys" None]) lost_wallet
             (fun c => if String.eqb c "found_items"
                       then [doc_of "f1" "keys" None] else [])
             "lost" "black wallet" None [] (doc_of "f1" "keys" None)
             eq_refl eq_refl (or_introl eq_refl) eq_refl eq_refl).
  - lia.
Defined.

(** ** Every way a request can end *)

Lemma read_query_cases (E : Env) (req : request) :
  (exists e, read_query E req = (inl e, []))
  \/ (exists ty txt img t0,
        read_query E req = (inr (ty, txt, img), t0)
        /\ (t0 = [] \/ exists url, t0 = [HttpGet Query url])).
Proof.
  destruct req as [data|form files].
  - destruct (dict_get data "type" (JStr EmptyString)) as [|b|n|ty] eqn:Hty;
      try (left; eexists; unfold read_query; rewrite Hty; reflexivity).
    destruct (dict_get data "text" (JStr EmptyString)) as [|b|n|tx] eqn:Htx;
      try (left; eexists; unfold read_query; rewrite Hty, Htx; reflexivity).
    right.
    destruct (read_query_strings E (JsonRequest data) ty tx Hty Htx)
      as (img & t0 & Hrq & Ht0).
    exists (lower ty), (strip tx), img, t0. auto.
  - right.
    destruct (read_query_strings E (FormRequest form files)
                (dict_get form "type" EmptyString)
                (dict_get form "text" EmptyString) eq_refl eq_refl)
      as (img & t0 & Hrq & Ht0).
    eauto 8.
Qed.

(** The four ways [match_items] ends: no repository, an exception while
    the request is read, a validation error, or a search. *)
Lemma match_items_outcomes (E : Env) (req : request) :
  (db E = None
   /\ match_items E req
      = (jsonify 500 (ErrorBody "Firebase not initialized"), []))
  \/ (exists e,
        db E <> None
        /\ read_query E req = (inl e, [])
        /\ match_items E req = (jsonify 500 (ErrorBody (exn_str e)), []))
  \/ (exists ty txt img t0 msg,
        db E <> None
        /\ read_query E req = (inr (ty, txt, img), t0)
        /\ streamed t0 = []
        /\ (msg = type_error_message \/ msg = text_error_message)
        /\ match_items E req = (jsonify 400 (ErrorBody msg), t0))
  \/ (exists stream ty txt img t0,
        db E = Some stream
        /\ read_query E req = (inr (ty, txt, img), t0)
        /\ streamed t0 = []
        /\ (ty = "lost" \/ ty = "found")
        /\ str_truthy txt = true).
Proof.
  destruct (db E) as [stream|] eqn:Hdb.
  2: { left. split; [reflexivity|].
       unfold match_items, match_items_try. rewrite Hdb. reflexivity. }
  right.
  destruct (read_query_cases E req)
    as [(e & Hrq)|(ty & txt & img & t0 & Hrq & Ht0)].
  - left. exists e. split; [discriminate|]. split; [exact Hrq|].
    unfold match_items, match_items_try. rewrite Hdb, Hrq. reflexivity.
  - right.
    assert (Hs0 : streamed t0 = [])
      by (destruct Ht0 as [->|(url & ->)]; reflexivity).
    destruct (negb (str_truthy ty)
              || negb (String.eqb ty "lost" || String.eqb ty "found"))
      eqn:Hv.
    + left. exists ty, txt, img, t0, type_error_message.
      repeat split; auto; try discriminate.
      unfold match_items, match_items_try.
      rewrite Hdb, Hrq, bind_ok. cbn beta iota. rewrite Hv. cbn.
      rewrite app_nil_r. reflexivity.
    + destruct (str_truthy txt) eqn:Htxt.
      * right. exists stream, ty, txt, img, t0. repeat split; auto.
        apply orb_false_iff in Hv as [_ Hv].
        apply negb_false_iff, orb_true_iff in Hv.
        destruct Hv as [Hv|Hv]; apply String.eqb_eq in Hv; auto.
      * left. exists ty, txt, img, t0, text_error_message.
        repeat split; auto; try discriminate.
        unfold match_items, match_items_try.
        rewrite Hdb, Hrq, bind_ok. cbn beta iota. rewrite Hv, Htxt. cbn.
        rewrite app_nil_r. reflexivity.
Qed.

(** X13.  Every request is answered with status 200, 400 or 500, and the
    body has an [error] exactly when the status is not 200. *)
Theorem status_and_error (E : Env) (req : request) :
  let r := fst (match_items E req) in
  (status r = 200%nat /\ resp_error r = None)
  \/ ((status r = 400%nat \/ status r = 500%nat)
      /\ exists e, resp_error r = Some e).
Proof.
  cbv zeta.
  destruct (match_items_outcomes E req)
    as [(_ & Hm)|[(e & _ & _ & Hm)|[(ty & txt & img & t0 & msg & _ & _ & _ & _ & Hm)
       |(stream & ty & txt & img & t0 & Hdb & Hrq & _ & Hty & Htx)]]].
  - rewrite Hm. right. cbn. eauto.
  - rewrite Hm. right. cbn. eauto.
  - rewrite Hm. right. cbn. eauto.
  - destruct (match_items_valid E req stream ty txt img t0 Hdb Hrq Hty Htx)
      as (results & _ & Hm). cbv zeta in Hm. rewrite Hm. left.
    destruct (candidates stream (search_collection_of ty)); split; reflexivity.
Qed.

(** X14.  A request reads at most one collection, and none when it is
    answered with status 400, when Firebase is not initialised (then nothing
    at all is called), or when reading the request raises. *)
Theorem at_most_one_collection_is_read (E : Env) (req : request) :
  (List.length (streamed (snd (match_items E req))) <= 1)%nat
  /\ (status (fst (match_items E req)) = 400%nat ->
      streamed (snd (match_items E req)) = [])
  /\ (db E = None -> snd (match_items E req) = [])
  /\ (forall e t, read_query E req = (inl e, t) ->
                  streamed (snd (match_items E req)) = []).
Proof.
  destruct (match_items_outcomes E req)
    as [(Hdb & Hm)|[(e & Hdb & Hrq & Hm)|[(ty & txt & img & t0 & msg & Hdb & Hrq & Hs0 & _ & Hm)
       |(stream & ty & txt & img & t0 & Hdb & Hrq & Hs0 & Hty & Htx)]]].
  - rewrite Hm. cbn. split; [lia|]. repeat split.
  - rewrite Hm. cbn. split; [lia|]. repeat split.
  - rewrite Hm. cbn [fst snd]. rewrite Hs0. cbn.
    split; [lia|]. split; [reflexivity|]. split.
    + intros Hn. contradiction.
    + reflexivity.
  - destruct (match_items_valid E req stream ty txt img t0 Hdb Hrq Hty Htx)
      as (results & _ & Hm). cbv zeta in Hm. rewrite Hm. cbn [fst snd].
    rewrite streamed_app, Hs0. cbn [app streamed flat_map].
    fold (streamed (flat_map (fun it => snd (calculate_similarity E txt img it))
                             (candidates stream (search_collection_of ty)))).
    rewrite scoring_streams_nothing. cbn [List.length app].
    split; [lia|]. split; [|split].
    + destruct (candidates stream (search_collection_of ty)); discriminate.
    + intros Hn. rewrite Hdb in Hn. discriminate.
    + intros e t He. rewrite Hrq in He. discriminate.
Qed.

Lemma at_most_one_collection_is_read_witness :
  streamed (snd (match_items (env_with []) maybe_keys)) = [].
Proof.
  apply (proj1 (proj2 (at_most_one_collection_is_read (env_with [])
                         maybe_keys))).
  reflexivity.
Defined.

(** ** The health endpoint and the repository *)

(** X15.  [health_check] always answers 200, and it reports Firebase as
    [disconnected] exactly when every match request is refused with status
    500 and [Firebase not initialized], before anything is read or called. *)
Theorem health_reports_repository (E : Env) :
  fst (health_check E) = 200%nat
  /\ (health_firebase (snd (health_check E)) = "disconnected"
      <-> forall req,
            match_items E req
            = (jsonify 500 (ErrorBody "Firebase not initialized"), [])).
Proof.
  split; [reflexivity|].
  unfold health_check. cbn [snd health_firebase].
  destruct (db E) as [stream|] eqn:Hdb; split.
  - discriminate.
  - intros H. specialize (H (FormRequest [] [])).
    unfold match_items, match_items_try in H. rewrite Hdb in H.
    cbn in H. discriminate.
  - intros _ req. unfold match_items, match_items_try. rewrite Hdb.
    reflexivity.
  - reflexivity.
Qed.

(** ** Forms and JSON bodies *)

(** X17.  With Firebase initialised, a JSON body whose [type] is not a
    string is answered with status 500 and the message of the
    [AttributeError], and so is one whose [type] is a string and whose
    [text] is not, whatever the type is; nothing is read or called. *)
Theorem non_string_field_is_500 (E : Env) (data : dict jval) (v : jval) :
  db E <> None ->
  (forall s, v <> JStr s) ->
  (dict_get data "type" (JStr EmptyString) = v ->
   match_items E (JsonRequest data)
   = (jsonify 500
        (ErrorBody (exn_str (AttributeError (jval_type_name v) "lower"))),
      []))
  /\ (forall ty,
        dict_get data "type" (JStr EmptyString) = JStr ty ->
        dict_get data "text" (JStr EmptyString) = v ->
        match_items E (JsonRequest data)
        = (jsonify 500
             (ErrorBody (exn_str (AttributeError (jval_type_name v) "strip"))),
           [])).
Proof.
  intros Hdb Hv.
  destruct (db E) as [stream|] eqn:Hdb'; [clear Hdb | contradiction].
  split.
  - intros Hty. unfold match_items, match_items_try, read_query.
    rewrite Hdb', Hty.
    destruct v as [|b|n|s]; try reflexivity. destruct (Hv s eq_refl).
  - intros ty Hty Htx. unfold match_items, match_items_try, read_query.
    rewrite Hdb', Hty, Htx.
    destruct v as [|b|n|s]; try reflexivity. destruct (Hv s eq_refl).
Qed.

Lemma non_string_field_is_500_witness :
  match_items (env_with []) null_type_keys
  = (jsonify 500 (ErrorBody "'NoneType' object has no attribute 'lower'"), []).
Proof.
  refine (proj1 (non_string_field_is_500 (env_with [])
                   [("type", JNull); ("text", JStr "keys")] JNull _ _)
            eq_refl).
  - discriminate.
  - discriminate.
Defined.

(** ** A query image that cannot be embedded, and no query image *)

Lemma image_part_query_not_embedded (E : Env) (qimg : image) (it : item) :
  image_model_encode E qimg = None ->
  exists t, image_part E (Some qimg) it = (inr (0%R, false), t).
Proof.
  intros Hq. rewrite image_part_eq.
  destruct (image_url it) as [url|]; [|eauto].
  destruct (str_truthy url); [|eauto].
  destruct (requests_get_image E url) as [timg|]; [|eauto].
  rewrite Hq. eauto.
Qed.

(** X18.  When the image of the query cannot be embedded, no match of the
    request has an [image_similarity], and a match that has a
    [text_similarity] has it as its [overall_score]. *)
Theorem query_image_not_embedded (E : Env) (req : request)
    (stream : string -> list document) (ty txt : string) (qimg : image)
    (t0 : list event) (ms : list result) (m : result) :
  db E = Some stream ->
  read_query E req = (inr (ty, txt, Some qimg), t0) ->
  ty = "lost" \/ ty = "found" ->
  str_truthy txt = true ->
  image_model_encode E qimg = None ->
  resp_matches (fst (match_items E req)) = Some ms ->
  In m ms ->
  image_similarity (similarity m) = None
  /\ has_image (similarity m) = false
  /\ (forall s, text_similarity (similarity m) = Some s ->
                overall_score (similarity m) = s).
Proof.
  intros Hdb Hrq Hty Htx Hq Hms Hin.
  destruct (match_items_valid E req stream ty txt (Some qimg) t0
              Hdb Hrq Hty Htx) as (results & HF & Hm).
  cbv zeta in Hm. rewrite Hm in Hms.
  destruct (candidates stream (search_collection_of ty)) as [|it0 items].
  - apply some_eq in Hms. subst ms. destruct Hin.
  - apply some_eq in Hms. rewrite <- Hms in Hin.
    apply in_firstn in Hin.
    apply (Permutation_in _ (sort_reverse_perm results)) in Hin.
    destruct (Forall2_scored_in_r _ _ _ _ _ _ HF Hin)
      as (it & _ & sim & t & Hsim & ->).
    destruct (text_part_total E txt it) as (ts & ht & t1 & Ht & _).
    destruct (image_part_query_not_embedded E qimg it Hq) as (t2 & Hi).
    rewrite (calculate_similarity_eq _ _ _ _ _ _ _ _ _ _ Ht Hi) in Hsim.
    injection Hsim as <- _.
    cbn [similarity result_entry image_similarity has_image overall_score
         text_similarity].
    repeat split.
    intros s Hs. destruct ht; [|discriminate].
    injection Hs as <-. reflexivity.
Qed.

Lemma query_image_not_embedded_witness :
  exists m,
    resp_matches
      (fst (match_items
              (env_image_model_fails
                 [doc_of "f1" "brown wallet" (Some "http://img/f1.jpg")])
              lost_wallet_with_picture)) = Some [m]
    /\ image_similarity (similarity m) = None
    /\ has_image (similarity m) = false
    /\ (forall s, text_similarity (similarity m) = Some s ->
                  overall_score (similarity m) = s).
Proof.
  pose (d := doc_of "f1" "brown wallet" (Some "http://img/f1.jpg")).
  pose (stream := fun c => if String.eqb c "found_items" then [d] else []).
  destruct (match_items_single (env_image_model_fails [d])
              lost_wallet_with_picture stream
              "lost" "black wallet" (Some {| pixels := [0%Z] |}) [] d
              eq_refl eq_refl (or_introl eq_refl) eq_refl eq_refl)
    as (sim & t & _ & Hms).
  eexists. split; [exact Hms|].
  exact (query_image_not_embedded (env_image_model_fails [d])
           lost_wallet_with_picture stream
           "lost" "black wallet" {| pixels := [0%Z] |} [] _ _
           eq_refl eq_refl (or_introl eq_refl) eq_refl eq_refl Hms
           (or_introl eq_refl)).
Defined.

Lemma no_image_work_of_candidate (E : Env) (query_text : string) (it : item) :
  count_events is_image_work
    (snd (calculate_similarity E query_text None it))
  = 0%nat.
Proof.
  rewrite calculate_similarity_trace, count_events_app, image_part_eq.
  rewrite text_part_eq. cbv zeta.
  destruct (_ && _); [|reflexivity].
  destruct (embeddable query_text), (embeddable (description it));
    reflexivity.
Qed.

Lemma count_events_flat_map_zero (p : event -> bool) (f : item -> list event)
    (items : list item) :
  (forall it, count_events p (f it) = 0%nat) ->
  count_events p (flat_map f items) = 0%nat.
Proof.
  intros H. induction items as [|it items IH]; simpl; [reflexivity|].
  rewrite count_events_app, H, IH. reflexivity.
Qed.

(** X19.  A request without a usable query image downloads no image of a
    candidate and embeds no image, whatever URLs the candidates have. *)
Theorem no_query_image_no_image_work (E : Env) (req : request)
    (ty txt : string) (t0 : list event) :
  read_query E req = (inr (ty, txt, None), t0) ->
  count_events is_image_work (snd (match_items E req)) = 0%nat.
Proof.
  intros Hrq.
  destruct (match_items_outcomes E req)
    as [(_ & Hm)|[(e & _ & Hrq' & _)|[(ty' & txt' & img & t1 & msg & _ & Hrq' & _ & _ & Hm)
       |(stream & ty' & txt' & img & t1 & Hdb & Hrq' & _ & Hty & Htx)]]].
  - rewrite Hm. reflexivity.
  - rewrite Hrq in Hrq'. discriminate.
  - rewrite Hrq in Hrq'. injection Hrq' as <- <- <- <-.
    rewrite Hm. cbn [snd].
    destruct (read_query_cases E req)
      as [(e & He)|(? & ? & ? & ? & Hrq2 & Ht0)]; [congruence|].
    rewrite Hrq in Hrq2. injection Hrq2 as <- <- <- <-.
    destruct Ht0 as [->|(url & ->)]; reflexivity.
  - rewrite Hrq in Hrq'. injection Hrq' as <- <- <- <-.
    destruct (match_items_valid E req stream ty txt None t0 Hdb Hrq Hty Htx)
      as (results & _ & Hm). cbv zeta in Hm. rewrite Hm. cbn [snd].
    rewrite count_events_app.
    change (FirestoreStream ?c :: ?l) with ([FirestoreStream c] ++ l)%list.
    rewrite count_events_app, count_events_flat_map_zero
      by (intros it; apply no_image_work_of_candidate).
    destruct (read_query_cases E req)
      as [(e & He)|(? & ? & ? & ? & Hrq2 & Ht0)]; [congruence|].
    rewrite Hrq in Hrq2. injection Hrq2 as <- <- <- <-.
    destruct Ht0 as [->|(url & ->)]; reflexivity.
Qed.

Lemma no_query_image_no_image_work_witness :
  count_events is_image_work
    (snd (match_items
            (env_images [doc_of "f1" "brown wallet" (Some "http://img/f1.jpg")])
            lost_wallet))
  = 0%nat.
Proof.
  exact (no_query_image_no_image_work
           (env_images [doc_of "f1" "brown wallet" (Some "http://img/f1.jpg")])
           lost_wallet "lost" "black wallet" [] eq_refl).
Defined.

(** ** The description shown with a match *)

Lemma append_assoc' (a b c : string) : (a ++ b) ++ c = a ++ (b ++ c).
Proof. induction a as [|x a IH]; simpl; [reflexivity | rewrite IH; reflexivity]. Qed.

Lemma chars_join_app (l : list string) (b : string) :
  good l -> starts_with_continuation b = false ->
  chars (join l ++ b) = (l ++ chars b)%list.
Proof.
  intros [H1 H2] Hb. induction l as [|ch l IH]; [reflexivity|].
  inversion H1 as [|? ? Hch Hl]; subst. simpl in H2.
  simpl join. rewrite append_assoc', chars_app_char; auto.
  - simpl. f_equal. apply IH; auto.
    destruct l; [constructor|]. inversion H2; assumption.
  - destruct l as [|ch' l]; [exact Hb|].
    inversion Hl as [|? ? (c & r & -> & _) _]; subst.
    inversion H2; subst. assumption.
Qed.

Lemma firstn_good (n : nat) (l : list string) : good l -> good (firstn n l).
Proof.
  intros Hl. rewrite <- (firstn_skipn n l) in Hl.
  apply good_app in Hl. tauto.
Qed.

Lemma py_len_prefix_dots (n : nat) (s : string) :
  (py_len (prefix_of n s ++ "...") <= n + 3)%nat.
Proof.
  unfold py_len, prefix_of.
  rewrite chars_join_app by (try apply firstn_good, chars_good; reflexivity).
  rewrite length_app, length_firstn. simpl. lia.
Qed.

Lemma prefix_of_prefix_dots (n : nat) (s : string) :
  (n < py_len s)%nat ->
  prefix_of n (prefix_of n s ++ "...") = prefix_of n s.
Proof.
  unfold py_len, prefix_of. intros Hn.
  rewrite chars_join_app by (try apply firstn_good, chars_good; reflexivity).
  rewrite firstn_app, length_firstn, firstn_firstn.
  replace (n - Nat.min n (List.length (chars s)))%nat with 0%nat by lia.
  rewrite Nat.min_id. simpl. rewrite app_nil_r. reflexivity.
Qed.

Lemma prefix_of_all (n : nat) (s : string) :
  (py_len s <= n)%nat -> prefix_of n s = s.
Proof.
  unfold py_len, prefix_of. intros Hn.
  rewrite firstn_all2 by exact Hn. apply join_chars.
Qed.

Lemma result_entry_description (it : item) (sim : similarity_t) :
  (py_len (res_description (result_entry it sim)) <= 103)%nat
  /\ prefix_of 100 (res_description (result_entry it sim))
     = prefix_of 100 (description it).
Proof.
  cbn [res_description result_entry].
  destruct (100 <? py_len (description it))%nat eqn:Hlen.
  - apply Nat.ltb_lt in Hlen. split.
    + apply (py_len_prefix_dots 100).
    + apply prefix_of_prefix_dots. exact Hlen.
  - apply Nat.ltb_ge in Hlen. split; [lia | reflexivity].
Qed.

(** X20.  The description shown with a match is never longer than 103
    characters and starts with the first 100 characters of the description
    of its candidate. *)
Theorem match_description_is_short (E : Env) (req : request)
    (ms : list result) (m : result) :
  resp_matches (fst (match_items E req)) = Some ms ->
  In m ms ->
  (py_len (res_description m) <= 103)%nat
  /\ exists stream coll it,
       db E = Some stream
       /\ In it (candidates stream coll)
       /\ item_id m = id it
       /\ prefix_of 100 (res_description m) = prefix_of 100 (description it).
Proof.
  intros Hms Hin.
  destruct (match_items_cases E req)
    as [(code & e & Herr)|(stream & ty & txt & img & t0 & Hdb & Hrq & Hty & Htx)].
  - rewrite Herr in Hms. discriminate.
  - destruct (match_items_valid E req stream ty txt img t0 Hdb Hrq Hty Htx)
      as (results & HF & Hm). cbv zeta in Hm. rewrite Hm in Hms.
    destruct (candidates stream (search_collection_of ty)) as [|it0 items]
      eqn:Hc.
    + apply some_eq in Hms. subst ms. destruct Hin.
    + apply some_eq in Hms. rewrite <- Hms in Hin.
      apply in_firstn in Hin.
      apply (Permutation_in _ (sort_reverse_perm results)) in Hin.
      destruct (Forall2_scored_in_r _ _ _ _ _ _ HF Hin)
        as (it & Hit & sim & t & _ & ->).
      destruct (result_entry_description it sim) as (H1 & H2).
      split; [exact H1|].
      exists stream, (search_collection_of ty), it.
      rewrite Hc. repeat split; auto.
Qed.

Lemma match_description_is_short_witness :
  exists m,
    resp_matches (fst (match_items (env_with [doc_of "f1" "keys" None])
                                   lost_wallet)) = Some [m]
    /\ (py_len (res_description m) <= 103)%nat.
Proof.
  destruct (match_items_single
              (env_with [doc_of "f1" "keys" None]) lost_wallet
              (fun c => if String.eqb c "found_items"
                        then [doc_of "f1" "keys" None] else [])
              "lost" "black wallet" None [] (doc_of "f1" "keys" None)
              eq_refl eq_refl (or_introl eq_refl) eq_refl eq_refl)
    as (sim & t & _ & Hms).
  eexists. split; [exact Hms|].
  exact (proj1 (match_description_is_short _ _ _ _ Hms (or_introl eq_refl))).
Defined.

(** ** Downloads of candidates' images *)

Lemma candidate_downloads_app (t1 t2 : list event) :
  candidate_downloads (t1 ++ t2)
  = (candidate_downloads t1 ++ candidate_downloads t2)%list.
Proof. apply flat_map_app. Qed.

Lemma downloads_of_candidate (E : Env) (query_text : string) (qimg : image)
    (it : item) :
  candidate_downloads (snd (calculate_similarity E query_text (Some qimg) it))
  = usable_image_urls [it].
Proof.
  rewrite calculate_similarity_trace, candidate_downloads_app.
  replace (candidate_downloads (snd (text_part E query_text it)))
    with (@nil string).
  - rewrite image_part_eq. unfold usable_image_urls. cbn [flat_map app].
    destruct (image_url it) as [url|]; [|reflexivity].
    destruct (str_truthy url); [|reflexivity].
    destruct (requests_get_image E url) as [timg|]; [|reflexivity].
    destruct (image_model_encode E qimg), (image_model_encode E timg);
      reflexivity.
  - rewrite text_part_eq. cbv zeta.
    destruct (_ && _); [|reflexivity].
    destruct (embeddable query_text), (embeddable (description it));
      reflexivity.
Qed.

Lemma downloads_of_candidates (E : Env) (query_text : string) (qimg : image)
    (items : list item) :
  candidate_downloads
    (flat_map (fun it => snd (calculate_similarity E query_text (Some qimg) it))
              items)
  = usable_image_urls items.
Proof.
  induction items as [|it items IH]; [reflexivity|].
  cbn [flat_map].
  rewrite candidate_downloads_app, downloads_of_candidate, IH.
  unfold usable_image_urls. cbn [flat_map]. rewrite app_nil_r. reflexivity.
Qed.

(** X21.  A request with a query image that is answered with status 200
    has downloaded the image of every candidate that has a non-empty image
    URL, each once and in the order of the candidates, and no other, also
    when the image of the query cannot be embedded. *)
Theorem one_download_per_candidate_image (E : Env) (req : request)
    (ty txt : string) (qimg : image) (t0 : list event) :
  read_query E req = (inr (ty, txt, Some qimg), t0) ->
  status (fst (match_items E req)) = 200%nat ->
  exists stream,
    db E = Some stream
    /\ candidate_downloads (snd (match_items E req))
       = usable_image_urls (candidates stream (search_collection_of ty)).
Proof.
  intros Hrq Hst.
  destruct (match_items_outcomes E req)
    as [(_ & Hm)|[(e & _ & _ & Hm)|[(ty' & txt' & img & t1 & msg & _ & _ & _ & _ & Hm)
       |(stream & ty' & txt' & img & t1 & Hdb & Hrq' & _ & Hty & Htx)]]];
    try (rewrite Hm in Hst; discriminate).
  rewrite Hrq in Hrq'. injection Hrq' as <- <- <- <-.
  exists stream. split; [exact Hdb|].
  destruct (match_items_valid E req stream ty txt (Some qimg) t0
              Hdb Hrq Hty Htx) as (results & _ & Hm).
  cbv zeta in Hm. rewrite Hm. cbn [snd].
  rewrite candidate_downloads_app.
  change (FirestoreStream ?c :: ?l) with ([FirestoreStream c] ++ l)%list.
  rewrite candidate_downloads_app.
  assert (H0 : candidate_downloads t0 = []).
  { destruct (read_query_cases E req)
      as [(e & He)|(? & ? & ? & ? & Hrq2 & Ht0)]; [congruence|].
    rewrite Hrq in Hrq2. injection Hrq2 as <- <- <- <-.
    destruct Ht0 as [->|(url & ->)]; reflexivity. }
  rewrite H0, downloads_of_candidates. reflexivity.
Qed.

Lemma one_download_per_candidate_image_witness :
  exists stream,
    db (env_image_model_fails
          [doc_of "f1" "brown wallet" (Some "http://img/f1.jpg");
           doc_of "f2" "set of keys" None]) = Some stream
    /\ candidate_downloads
         (snd (match_items
                 (env_image_model_fails
                    [doc_of "f1" "brown wallet" (Some "http://img/f1.jpg");
                     doc_of "f2" "set of keys" None])
                 lost_wallet_with_picture))
       = usable_image_urls (candidates stream (search_collection_of "lost")).
Proof.
  apply (one_download_per_candidate_image
           (env_image_model_fails
              [doc_of "f1" "brown wallet" (Some "http://img/f1.jpg");
               doc_of "f2" "set of keys" None])
           lost_wallet_with_picture
           "lost" "black wallet" {| pixels := [0%Z] |} [] eq_refl).
  destruct (match_items_valid
              (env_image_model_fails
                 [doc_of "f1" "brown wallet" (Some "http://img/f1.jpg");
                  doc_of "f2" "set of keys" None])
              lost_wallet_with_picture
              (fun c => if String.eqb c "found_items"
                        then [doc_of "f1" "brown wallet"
                                     (Some "http://img/f1.jpg");
                              doc_of "f2" "set of keys" None]
                        else [])
              "lost" "black wallet" (Some {| pixels := [0%Z] |}) []
              eq_refl eq_refl (or_introl eq_refl) eq_refl)
    as (results & _ & Hm).
  cbv zeta in Hm. rewrite Hm. reflexivity.
Defined.

(** ** A query image that cannot be loaded *)

(** X22.  When the query has no usable image (none was sent, or its URL
    could not be loaded, or the uploaded file could not be opened) the
    request is scored on text alone: no match has an [image_similarity],
    and a match that has a [text_similarity] has it as its
    [overall_score]. *)
Theorem no_query_image_text_only (E : Env) (req : request)
    (ty txt : string) (t0 : list event) (ms : list result) (m : result) :
  read_query E req = (inr (ty, txt, None), t0) ->
  resp_matches (fst (match_items E req)) = Some ms ->
  In m ms ->
  image_similarity (similarity m) = None
  /\ has_image (similarity m) = false
  /\ (forall s, text_similarity (similarity m) = Some s ->
                overall_score (similarity m) = s).
Proof.
  intros Hrq Hms Hin.
  destruct (match_items_cases E req)
    as [(code & e & Herr)|(stream & ty' & txt' & img & t1 & Hdb & Hrq' & Hty & Htx)].
  - rewrite Herr in Hms. discriminate.
  - rewrite Hrq in Hrq'. injection Hrq' as <- <- <- <-.
    destruct (match_items_valid E req stream ty txt None t0 Hdb Hrq Hty Htx)
      as (results & HF & Hm). cbv zeta in Hm. rewrite Hm in Hms.
    destruct (candidates stream (search_collection_of ty)) as [|it0 items].
    + apply some_eq in Hms. subst ms. destruct Hin.
    + apply some_eq in Hms. rewrite <- Hms in Hin.
      apply in_firstn in Hin.
      apply (Permutation_in _ (sort_reverse_perm results)) in Hin.
      destruct (Forall2_scored_in_r _ _ _ _ _ _ HF Hin)
        as (it & _ & sim & t & Hsim & ->).
      destruct (text_part_total E txt it) as (ts & ht & t1 & Ht & _).
      assert (Hi : image_part E None it = (inr (0%R, false), []))
        by (rewrite image_part_eq; reflexivity).
      rewrite (calculate_similarity_eq _ _ _ _ _ _ _ _ _ _ Ht Hi) in Hsim.
      injection Hsim as <- _.
      cbn [similarity result_entry image_similarity has_image overall_score
           text_similarity].
      repeat split.
      intros s Hs. destruct ht; [|discriminate].
      injection Hs as <-. reflexivity.
Qed.

Lemma no_query_image_text_only_witness :
  exists m,
    resp_matches
      (fst (match_items
              (env_with [doc_of "f1" "brown wallet" (Some "http://img/f1.jpg")])
              lost_wallet_with_url)) = Some [m]
    /\ image_similarity (similarity m) = None
    /\ has_image (similarity m) = false
    /\ (forall s, text_similarity (similarity m) = Some s ->
                  overall_score (similarity m) = s).
Proof.
  pose (d := doc_of "f1" "brown wallet" (Some "http://img/f1.jpg")).
  pose (stream := fun c => if String.eqb c "found_items" then [d] else []).
  destruct (match_items_single (env_with [d]) lost_wallet_with_url stream
              "lost" "black wallet" None
              [HttpGet Query "http://img/wallet.jpg"] d
              eq_refl eq_refl (or_introl eq_refl) eq_refl eq_refl)
    as (sim & t & _ & Hms).
  eexists. split; [exact Hms|].
  exact (no_query_image_text_only (env_with [d]) lost_wallet_with_url
           "lost" "black wallet" [HttpGet Query "http://img/wallet.jpg"] _ _
           eq_refl Hms (or_introl eq_refl)).
Defined.
